(** * ollama_cli.py: the local daemon interaction layer

    A shallow embedding of [list_installed_models], [ensure_model_exists],
    [select_and_run_model] and [run_llama] of [ollama_cli.py], with the
    properties of the availability resolver, the model selection flow and
    the streaming chat session.

    Conventions.
    - A Python [str] is a [string] with one [ascii] per code point, so the
      strings of this development are the Python strings whose code points
      are below 256.  [str.lower] and [str.strip] are written out for that
      range as CPython computes them.
    - The daemon is an oracle indexed by the number of daemon calls made so
      far; it may answer every call differently.
    - Standard input is the list of the lines still to be read; [input()] on
      the empty list raises [EOFError].
    - What the program prints and which daemon operations it invokes are
      recorded, in order, in one trace of events. *)

From Stdlib Require Import String Ascii List Bool Arith ZArith Lia.
Import ListNotations.
Open Scope string_scope.
Open Scope list_scope.

(** ** Python strings *)

Module PyStr.

(** [str.isspace] on one code point below 256: TAB..CR, FS..US, SPACE,
    NEL (133) and NBSP (160). *)
Definition isspace (c : ascii) : bool :=
  let n := nat_of_ascii c in
  (((9 <=? n) && (n <=? 13)) || ((28 <=? n) && (n <=? 32))
   || (n =? 133) || (n =? 160))%nat.

(** [str.lower] on one code point below 256: A..Z and the Latin-1 capitals
    192..222 except the multiplication sign 215 move up by 32. *)
Definition lower_char (c : ascii) : ascii :=
  let n := nat_of_ascii c in
  if (((65 <=? n) && (n <=? 90))
      || ((192 <=? n) && (n <=? 222) && negb (n =? 215)))%nat
  then ascii_of_nat (n + 32) else c.

Fixpoint lower (s : string) : string :=
  match s with
  | EmptyString => EmptyString
  | String c s' => String (lower_char c) (lower s')
  end.

Fixpoint lstrip (s : string) : string :=
  match s with
  | EmptyString => EmptyString
  | String c s' => if isspace c then lstrip s' else s
  end.

Fixpoint rstrip (s : string) : string :=
  match s with
  | EmptyString => EmptyString
  | String c s' =>
      match rstrip s' with
      | EmptyString => if isspace c then EmptyString else String c EmptyString
      | r => String c r
      end
  end.

(** [s.strip()] with no argument. *)
Definition strip (s : string) : string := rstrip (lstrip s).

(** [x in l] for a list of strings. *)
Definition str_in (x : string) (l : list string) : bool :=
  existsb (String.eqb x) l.

(** [not s] for a string. *)
Definition is_blank (s : string) : bool :=
  match s with EmptyString => true | _ => false end.

(** [s[:n]]. *)
Definition prefix_of (n : nat) (s : string) : string := substring 0 n s.

(** No character of [s] is white space. *)
Fixpoint nospace (s : string) : bool :=
  match s with
  | EmptyString => true
  | String c s' => negb (isspace c) && nospace s'
  end.

End PyStr.
Import PyStr.

(** ** Values exchanged with the daemon *)

(** One element of [response['models']].  The source reads it through
    [getattr(m, 'model', ...)] and through [m.get(key, default)]; a field is
    [None] when the attribute or the key is absent. *)
Record model_entry := {
  attr_model : option string;
  key_name : option string;
  key_model : option string;
  key_size : option Z;
  key_digest : option string
}.

(** The answer of [ollama.list()]: [models] is [None] when the key is
    missing. *)
Record list_response := { resp_models : option (list model_entry) }.

Record progress := { status : option string }.

Record chat_message := { content : option string }.
Record chunk := { message : option chat_message }.

(** [{'role': r, 'content': c}] *)
Record request_message := { msg_role : string; msg_content : string }.

Inductive exn :=
| EOFError
| DaemonError (reason : string).

(** A lazy sequence: the items it yields, then a normal end or an
    exception. *)
Record stream (A : Type) := { items : list A; failure : option exn }.
Arguments items {A} _.
Arguments failure {A} _.

(** What a call returns: an exception at once, or a value. *)
Inductive reply (A : Type) :=
| CallRaises (e : exn)
| Returns (a : A).
Arguments CallRaises {A} e.
Arguments Returns {A} a.

Record daemon := {
  on_list : nat -> reply list_response;
  on_pull : nat -> string -> reply (stream progress);
  on_chat : nat -> string -> list request_message -> reply (stream chunk)
}.

(** [d.get(key, default)] *)
Definition get {A} (field : option A) (default : A) : A :=
  match field with Some v => v | None => default end.

(** ** Events *)

Inductive daemon_call :=
| ollama_list
| ollama_pull (model : string)
| ollama_chat (model : string) (messages : list request_message).

Inductive prompt_text :=
| PromptChooseModel      (* "Enter the NAME of the model to chat with ..." *)
| PromptYou              (* "You: " *)
| PromptSubMenu.         (* "[c] Continue chatting | [q] Quit to main menu: " *)

(** The lines the modelled functions print; a constructor stands for the
    fixed text of one [print] call and carries what is formatted into it. *)
Inductive notice :=
| InstalledHeader                                   (* line 126 *)
| TableHeader                                       (* line 136 *)
| TableRule                                         (* line 137 *)
| TableRow (name : string) (size : Z) (mid : string) (* line 146 *)
| ListError (e : exn)                               (* line 150 *)
| Checking (model : string)                         (* line 179 *)
| NotFoundDownloading (model : string)              (* line 185 *)
| PullStatus (st : string)                          (* line 188 *)
| Downloaded (model : string)                       (* line 189 *)
| ReadyToGo (model : string)                        (* line 191 *)
| ValidateError (e : exn)                           (* line 194 *)
| NoModelsAvailable                                 (* line 206 *)
| Selected (model : string)                         (* line 226 *)
| NotInstalled (choice : string)                    (* line 229 *)
| ChatStarted (model : string)                      (* line 237 *)
| ReturningToMainMenu                               (* lines 245, 268 *)
| ReplyLabel (model : string)                       (* line 256 *)
| EndOfReply                                        (* line 260 *)
| InvalidInput                                      (* line 271 *)
| ChatError (e : exn).                              (* line 274 *)

Inductive event :=
| Call (c : daemon_call)        (* a daemon operation is invoked *)
| Ask (p : prompt_text)         (* [input(p)] shows its prompt *)
| Say (n : notice)              (* [print] of a fixed line *)
| Emit (text : string).         (* [print(text, end="", flush=True)] *)

(** ** The effect monad: global state, exceptions, trace *)

Record store := { MODEL_NAME : string; clock : nat }.

Inductive outcome (A : Type) :=
| Ret (a : A)
| Raise (e : exn).
Arguments Ret {A} a.
Arguments Raise {A} e.

Record run (A : Type) := {
  res : outcome A;
  final : store;
  trace : list event
}.
Arguments res {A} _.
Arguments final {A} _.
Arguments trace {A} _.

Definition M (A : Type) : Type := store -> run A.

Definition ret {A} (a : A) : M A :=
  fun s => {| res := Ret a; final := s; trace := [] |}.

Definition raise {A} (e : exn) : M A :=
  fun s => {| res := Raise e; final := s; trace := [] |}.

Definition bind {A B} (m : M A) (k : A -> M B) : M B :=
  fun s =>
    let r := m s in
    match res r with
    | Ret a =>
        let r' := k a (final r) in
        {| res := res r'; final := final r'; trace := trace r ++ trace r' |}
    | Raise e => {| res := Raise e; final := final r; trace := trace r |}
    end.

(** [try: m  except Exception as e: h e] *)
Definition try_except {A} (m : M A) (h : exn -> M A) : M A :=
  fun s =>
    let r := m s in
    match res r with
    | Ret _ => r
    | Raise e =>
        let r' := h e (final r) in
        {| res := res r'; final := final r'; trace := trace r ++ trace r' |}
    end.

Notation "x <- c1 ;; c2" := (bind c1 (fun x => c2))
  (at level 61, c1 at next level, right associativity).
Notation "' pat <- c1 ;; c2" :=
  (bind c1 (fun x => match x with pat => c2 end))
  (at level 61, pat pattern, c1 at next level, right associativity).
Notation "c1 ;; c2" := (bind c1 (fun _ => c2))
  (at level 61, right associativity).

Definition emit (e : event) : M unit :=
  fun s => {| res := Ret tt; final := s; trace := [e] |}.

Definition say (n : notice) : M unit := emit (Say n).

Definition read_MODEL_NAME : M string :=
  fun s => {| res := Ret (MODEL_NAME s); final := s; trace := [] |}.

Definition write_MODEL_NAME (m : string) : M unit :=
  fun s => {| res := Ret tt;
              final := {| MODEL_NAME := m; clock := clock s |};
              trace := [] |}.

(** A daemon call: recorded, answered by the oracle at the current clock,
    and the clock advances. *)
Definition call {A} (c : daemon_call) (answer : nat -> reply A) : M A :=
  fun s =>
    let s' := {| MODEL_NAME := MODEL_NAME s; clock := S (clock s) |} in
    match answer (clock s) with
    | CallRaises e => {| res := Raise e; final := s'; trace := [Call c] |}
    | Returns a => {| res := Ret a; final := s'; trace := [Call c] |}
    end.

(** [for x in items: body x] over a list. *)
Fixpoint for_items {A} (xs : list A) (body : A -> M unit) : M unit :=
  match xs with
  | [] => ret tt
  | x :: xs' => body x ;; for_items xs' body
  end.

(** [for x in s: body x] over a lazy sequence: an exception of the sequence
    surfaces after the items that came before it. *)
Definition for_each {A} (s : stream A) (body : A -> M unit) : M unit :=
  for_items (items s) body ;;
  match failure s with
  | Some e => raise e
  | None => ret tt
  end.

(** [input(p)]: the prompt is shown, then a line is read. *)
Definition input (p : prompt_text) (stdin : list string)
  : M (string * list string) :=
  emit (Ask p) ;;
  match stdin with
  | [] => raise EOFError
  | l :: rest => ret (l, rest)
  end.

(** ** The program *)

Section Program.

Variable d : daemon.

(** *** [list_installed_models], lines 124-151 *)

(** Line 141: [m.get('name', m.get('model', 'Unknown'))]. *)
Definition listed_name (m : model_entry) : string :=
  get (key_name m) (get (key_model m) "Unknown").

(** Lines 139-146: one row per model, its name appended to [names]. *)
Fixpoint list_rows (models_info : list model_entry) (names : list string)
  : M (list string) :=
  match models_info with
  | [] => ret names
  | m :: rest =>
      let name := listed_name m in
      let size := get (key_size m) 0%Z in
      let mid := prefix_of 12 (get (key_digest m) "N/A") in
      say (TableRow name size mid) ;;
      list_rows rest (names ++ [name])
  end.

Definition list_installed_models : M (list string) :=
  say InstalledHeader ;;
  try_except
    (response <- call ollama_list (on_list d) ;;
     let models_info := get (resp_models response) [] in
     match models_info with
     | [] => ret []
     | _ =>
         say TableHeader ;;
         say TableRule ;;
         list_rows models_info []
     end)
    (fun e => say (ListError e) ;; ret []).

(** *** [ensure_model_exists], lines 174-195 *)

(** Line 182: [getattr(m, 'model', m.get('model', m.get('name', '')))]. *)
Definition entry_model (m : model_entry) : string :=
  get (attr_model m) (get (key_model m) (get (key_name m) "")).

(** Line 182: the names the membership test of line 184 looks at. *)
Definition model_names (response : list_response) : list string :=
  map entry_model (get (resp_models response) []).

Definition ensure_model_exists (model_name : string) : M bool :=
  say (Checking model_name) ;;
  try_except
    (response <- call ollama_list (on_list d) ;;
     let models := model_names response in
     (if negb (str_in model_name models)
         && negb (str_in (model_name ++ ":latest")%string models)
      then
        say (NotFoundDownloading model_name) ;;
        pulled <- call (ollama_pull model_name)
                       (fun t => on_pull d t model_name) ;;
        for_each pulled (fun p => say (PullStatus (get (status p) ""))) ;;
        say (Downloaded model_name)
      else
        say (ReadyToGo model_name)) ;;
     ret true)
    (fun e => say (ValidateError e) ;; ret false).

(** *** [run_llama], lines 231-275 *)

(** Where the chat loop is blocked: at the [input] of line 241, at the
    [input] of line 264, or not any more. *)
Inductive control :=
| AwaitingPrompt
| SubMenu
| Terminated.

Definition control_eq_dec (c c' : control) : {c = c'} + {c <> c'}.
Proof. decide equality. Defined.

Definition exit_keywords : list string := ["exit"; "quit"; "q"].

(** Line 258: [chunk.get('message', {}).get('content', '')]. *)
Definition chunk_content (c : chunk) : string :=
  match message c with
  | Some m => get (content m) ""
  | None => ""
  end.

(** Lines 250-260, the Streaming state: the chat request, the label, every
    fragment as it arrives, the closing newline. *)
Definition streaming (prompt : string) : M unit :=
  model <- read_MODEL_NAME ;;
  let messages := [{| msg_role := "user"; msg_content := prompt |}] in
  chunks <- call (ollama_chat model messages)
                 (fun t => on_chat d t model messages) ;;
  model' <- read_MODEL_NAME ;;
  say (ReplyLabel model') ;;
  for_each chunks (fun c => emit (Emit (chunk_content c))) ;;
  say EndOfReply.

(** One iteration of the outer loop from its [input] (lines 241-260, 273-275)
    up to the entry of the sub-menu. *)
Definition prompt_step (line : string) : M control :=
  emit (Ask PromptYou) ;;
  let prompt := strip line in
  if str_in (lower prompt) exit_keywords then
    say ReturningToMainMenu ;; ret Terminated
  else
    try_except
      (streaming prompt ;; ret SubMenu)
      (fun e => say (ChatError e) ;; ret Terminated).

(** One iteration of the sub-menu loop (lines 263-271). *)
Definition submenu_step (line : string) : M control :=
  emit (Ask PromptSubMenu) ;;
  let choice := strip (lower line) in
  if String.eqb choice "c" then ret AwaitingPrompt
  else if String.eqb choice "q" then
    say ReturningToMainMenu ;; ret Terminated
  else
    say InvalidInput ;; ret SubMenu.

(** The program blocked at [c] reads [line]. *)
Definition step (c : control) (line : string) : M control :=
  match c with
  | AwaitingPrompt => prompt_step line
  | SubMenu => submenu_step line
  | Terminated => ret Terminated
  end.

(** The program blocked at [c] finds standard input at its end: the
    [EOFError] of line 241 leaves [run_llama]; that of line 264 is inside
    the [try] and ends the chat through line 273. *)
Definition at_eof (c : control) : M unit :=
  match c with
  | AwaitingPrompt => emit (Ask PromptYou) ;; raise EOFError
  | SubMenu => emit (Ask PromptSubMenu) ;; say (ChatError EOFError)
  | Terminated => ret tt
  end.

(** Lines 239-275: both loops, one line of standard input per iteration.
    The result is what is left of standard input. *)
Fixpoint chat_loop (c : control) (stdin : list string) : M (list string) :=
  match c with
  | Terminated => ret stdin
  | _ =>
      match stdin with
      | [] => at_eof c ;; ret []
      | line :: rest => c' <- step c line ;; chat_loop c' rest
      end
  end.

Definition run_llama (stdin : list string) : M (list string) :=
  model <- read_MODEL_NAME ;;
  ready <- ensure_model_exists model ;;
  if negb ready then ret stdin
  else
    model' <- read_MODEL_NAME ;;
    say (ChatStarted model') ;;
    chat_loop AwaitingPrompt stdin.

(** *** [select_and_run_model], lines 197-229 *)

(** Lines 217-221. *)
Definition matched_model (user_choice : string) (installed_names : list string)
  : string :=
  if str_in user_choice installed_names then user_choice
  else if str_in (user_choice ++ ":latest")%string installed_names
       then (user_choice ++ ":latest")%string
       else "".

Definition select_and_run_model (stdin : list string) : M (list string) :=
  installed_names <- list_installed_models ;;
  match installed_names with
  | [] => say NoModelsAvailable ;; ret stdin
  | _ =>
      '(line, rest) <- input PromptChooseModel stdin ;;
      let user_choice := strip line in
      if is_blank user_choice then ret rest
      else
        let matched := matched_model user_choice installed_names in
        if negb (is_blank matched) then
          write_MODEL_NAME matched ;;
          model <- read_MODEL_NAME ;;
          say (Selected model) ;;
          run_llama rest
        else
          say (NotInstalled user_choice) ;; ret rest
  end.

End Program.

(** ** Reading a trace *)

(** The daemon operations invoked, in order. *)
Fixpoint calls (t : list event) : list daemon_call :=
  match t with
  | [] => []
  | Call c :: t' => c :: calls t'
  | _ :: t' => calls t'
  end.

(** The text written by the [print(..., end="")] calls of the fragment loop,
    as it stands on the terminal. *)
Fixpoint emitted (t : list event) : string :=
  match t with
  | [] => ""
  | Emit text :: t' => (text ++ emitted t')%string
  | _ :: t' => emitted t'
  end.

(** f1 || f2 || ... || fn *)
Definition concatenation (fragments : list string) : string :=
  fold_right String.append "" fragments.

(** [s] after one more daemon call. *)
Definition tick (s : store) : store :=
  {| MODEL_NAME := MODEL_NAME s; clock := S (clock s) |}.

(** Line 184: neither the name nor the name with [:latest] is listed. *)
Definition absent (q : string) (names : list string) : bool :=
  negb (str_in q names) && negb (str_in (q ++ ":latest")%string names).

(** [s] with the global [MODEL_NAME] set to [m]. *)
Definition with_model (m : string) (s : store) : store :=
  {| MODEL_NAME := m; clock := clock s |}.

(** The single message of a chat turn (line 252). *)
Definition user_message (prompt : string) : request_message :=
  {| msg_role := "user"; msg_content := prompt |}.

(** A computation that leaves the global [MODEL_NAME] as it found it. *)
Definition keeps_model {A} (m : M A) : Prop :=
  forall s, MODEL_NAME (final (m s)) = MODEL_NAME s.

(** ** Scenarios *)

Module Scenario.

(** A daemon that gives the same answers at every call. *)
Definition steady (l : reply list_response) (p : reply (stream progress))
    (c : reply (stream chunk)) : daemon :=
  {| on_list := fun _ => l;
     on_pull := fun _ _ => p;
     on_chat := fun _ _ _ => c |}.

Definition entry (name : string) (size : Z) (digest : string) : model_entry :=
  {| attr_model := None; key_name := Some name; key_model := Some name;
     key_size := Some size; key_digest := Some digest |}.

Definition listing (ms : list model_entry) : reply list_response :=
  Returns {| resp_models := Some ms |}.

Definition fragment (text : string) : chunk :=
  {| message := Some {| content := Some text |} |}.

Definition llama3_latest : model_entry :=
  entry "llama3:latest" 4000000000 "abc123...".

Definition llama3_untagged : model_entry :=
  entry "llama3" 4000000000 "abc123...".

Definition pull_statuses : stream progress :=
  {| items := [ {| status := Some "pulling manifest" |};
                {| status := Some "downloading 10%" |};
                {| status := Some "downloading 100%" |};
                {| status := Some "verifying" |} ];
     failure := None |}.

Definition hello : stream chunk :=
  {| items := [fragment "Hel"; fragment "lo"; fragment "!"];
     failure := None |}.

(** The stream that breaks after "Hel". *)
Definition broken_after_Hel : stream chunk :=
  {| items := [fragment "Hel"];
     failure := Some (DaemonError "connection reset") |}.

Definition unreachable : exn := DaemonError "connection refused".

(** One model installed, chat answers "Hello!". *)
Definition d_llama3 : daemon :=
  steady (listing [llama3_latest]) (Returns pull_statuses) (Returns hello).

(** The same with a chat stream that breaks. *)
Definition d_broken : daemon :=
  steady (listing [llama3_latest]) (Returns pull_statuses)
         (Returns broken_after_Hel).

(** Both [llama3] and [llama3:latest] are listed. *)
Definition d_both : daemon :=
  steady (listing [llama3_untagged; llama3_latest]) (Returns pull_statuses)
         (Returns hello).

(** Reachable, nothing installed. *)
Definition d_empty : daemon :=
  steady (listing []) (Returns pull_statuses) (Returns hello).

(** Not reachable. *)
Definition d_down : daemon :=
  steady (CallRaises unreachable) (CallRaises unreachable)
         (CallRaises unreachable).

(** The module has just been loaded: [MODEL_NAME = ""]. *)
Definition fresh : store := {| MODEL_NAME := ""; clock := 0 |}.

(** A chat with [llama3:latest] is under way. *)
Definition chatting : store := {| MODEL_NAME := "llama3:latest"; clock := 2 |}.

End Scenario.

(** The row [list_installed_models] prints for one model (lines 141-146). *)
Definition table_row (m : model_entry) : event :=
  Say (TableRow (listed_name m) (get (key_size m) 0%Z)
                (prefix_of 12 (get (key_digest m) "N/A"))).

(** The pull statuses shown (line 188), in order. *)
Fixpoint statuses (t : list event) : list string :=
  match t with
  | [] => []
  | Say (PullStatus st) :: t' => st :: statuses t'
  | _ :: t' => statuses t'
  end.

(** The daemon raises somewhere in the run of [ensure_model_exists q] that
    starts at clock [t]: at the listing, or, when the model is missing, at
    the pull call or in its stream. *)
Definition daemon_fails (d : daemon) (t : nat) (q : string) : Prop :=
  match on_list d t with
  | CallRaises _ => True
  | Returns L =>
      absent q (model_names L) = true
      /\ match on_pull d (S t) q with
         | CallRaises _ => True
         | Returns st => failure st <> None
         end
  end.

(** The chat request of the prompt [p] at store [s] yields a stream that
    ends without an exception. *)
Definition chat_succeeds (d : daemon) (s : store) (p : string) : Prop :=
  exists st,
    on_chat d (clock s) (MODEL_NAME s) [user_message p] = Returns st
    /\ failure st = None.

(** The two ways of reading a name off an entry agree on the entries the
    daemon sends: those with a [model] attribute or key equal to their
    [name]. *)
Definition consistent (m : model_entry) : Prop :=
  listed_name m = entry_model m.

(** An entry whose [name] and [model] keys differ, and a daemon that lists
    it. *)
Definition aliased_entry : model_entry :=
  {| attr_model := None; key_name := Some "alias"; key_model := Some "real:7b";
     key_size := Some 1%Z; key_digest := None |}.

Definition d_aliased : daemon :=
  Scenario.steady (Scenario.listing [aliased_entry])
                  (Returns Scenario.pull_statuses) (Returns Scenario.hello).

(** * The other menu actions

    [pre_validation], [confirm_action], [pull_model], [remove_model],
    [show_ps] and [stop_model] use daemon operations, prompts and lines the
    chat functions do not have; they get their own events and exceptions,
    with those of the chat functions embedded.  The clock now counts every
    call to the outside. *)

Module Menu.

Inductive xexn :=
| Base (e : exn)               (* as before *)
| KeyError (key : string).     (* [m['size']] on an entry without it *)

(** One element of [ollama.ps()['models']]. *)
Record running_entry := {
  run_attr_model : option string;
  run_key_model : option string;
  run_key_name : option string;
  run_key_size : option Z
}.

Record ps_response := { ps_models : option (list running_entry) }.

(** What the scraper reads in one list item of the library page: the
    stripped text ([get_text(strip=True)]) of its first [h2], of its first
    [span] of class [text-lg], of its first [p] and of its first [span] of
    class [max-w-md]; [None] where there is no such tag. *)
Record item := {
  h2 : option string;
  span_text_lg : option string;
  p_tag : option string;
  span_max_w_md : option string
}.

(** The parsed page, as far as the code looks at it:
    [soup.find_all('li', class_='py-6')] and [soup.select('ul > li')]. *)
Record page := { li_py_6 : list item; ul_li : list item }.

Record services := {
  core : daemon;
  on_delete : nat -> string -> reply unit;
  on_generate : nat -> string -> Z -> reply unit;
  on_ps : nat -> reply ps_response;
  (* [requests.get(url, timeout=15)], [raise_for_status()] and the parse *)
  on_get : nat -> string -> reply page
}.

Inductive operation :=
| ollama_delete (model : string)
| ollama_generate (model : string) (keep_alive : Z)
| ollama_ps
| requests_get (url : string).

Inductive question :=
| AskConfirm (action_name : string)   (* line 31 *)
| AskPullName                         (* line 154 *)
| AskDeleteName                       (* line 166 *)
| AskStopName                         (* line 291 *)
| AskSearch.                          (* line 92 *)

Inductive report :=
| Pulling (model : string)            (* line 156 *)
| PullReady (model : string)          (* line 161 *)
| PullFailed (e : xexn)               (* line 163 *)
| Deleted (model : string)            (* line 170 *)
| DeleteError (e : xexn)              (* line 172 *)
| RunningHeader                       (* line 278 *)
| MemoryClear                         (* line 282 *)
| RunningRow (name : string) (size : Z) (* line 286 *)
| PsError (e : xexn)                  (* line 288 *)
| UnloadSent (model : string)         (* line 296 *)
| StopError (e : xexn)                (* line 298 *)
| Querying (url : string)             (* lines 49-50 *)
| RemoteHeader                        (* lines 65-66 *)
| RemoteRow (name description : string) (* lines 80-81 *)
| CouldNotParse                       (* line 85 *)
| FetchError (e : xexn)               (* line 88 *)
| ReachError (e : xexn)               (* line 44 *)
| SearchCancelled                     (* line 95 *)
| Searching (query : string)          (* line 98 *)
| Found (count : nat)                 (* lines 115-117 *)
| FoundRow (name description : string) (* lines 119-120 *)
| NoneFound (query : string).         (* line 122 *)

Inductive xevent :=
| Core (e : event)            (* an event of the chat functions *)
| Op (o : operation)          (* a daemon operation is invoked *)
| Question (q : question)     (* [input(q)] shows its prompt *)
| Report (r : report).        (* [print] of a fixed line *)

Inductive xoutcome (A : Type) :=
| Done (a : A)
| Failed (e : xexn).
Arguments Done {A} a.
Arguments Failed {A} e.

Record xrun (A : Type) := {
  xres : xoutcome A;
  xfinal : store;
  xtrace : list xevent
}.
Arguments xres {A} _.
Arguments xfinal {A} _.
Arguments xtrace {A} _.

Definition X (A : Type) : Type := store -> xrun A.

Definition ret {A} (a : A) : X A :=
  fun s => {| xres := Done a; xfinal := s; xtrace := [] |}.

Definition raise {A} (e : xexn) : X A :=
  fun s => {| xres := Failed e; xfinal := s; xtrace := [] |}.

Definition bind {A B} (m : X A) (k : A -> X B) : X B :=
  fun s =>
    let r := m s in
    match xres r with
    | Done a =>
        let r' := k a (xfinal r) in
        {| xres := xres r'; xfinal := xfinal r';
           xtrace := xtrace r ++ xtrace r' |}
    | Failed e => {| xres := Failed e; xfinal := xfinal r;
                     xtrace := xtrace r |}
    end.

(** [try: m  except Exception as e: h e] *)
Definition try_except {A} (m : X A) (h : xexn -> X A) : X A :=
  fun s =>
    let r := m s in
    match xres r with
    | Done _ => r
    | Failed e =>
        let r' := h e (xfinal r) in
        {| xres := xres r'; xfinal := xfinal r';
           xtrace := xtrace r ++ xtrace r' |}
    end.

Declare Scope menu_scope.
Delimit Scope menu_scope with menu.
Notation "x <- c1 ;; c2" := (bind c1 (fun x => c2))
  (at level 61, c1 at next level, right associativity) : menu_scope.
Notation "' pat <- c1 ;; c2" :=
  (bind c1 (fun x => match x with pat => c2 end))
  (at level 61, pat pattern, c1 at next level, right associativity)
  : menu_scope.
Notation "c1 ;; c2" := (bind c1 (fun _ => c2))
  (at level 61, right associativity) : menu_scope.
Local Open Scope menu_scope.

Definition emit (e : xevent) : X unit :=
  fun s => {| xres := Done tt; xfinal := s; xtrace := [e] |}.

Definition report_line (r : report) : X unit := emit (Report r).

(** A call to the outside: recorded, answered at the current clock, and
    the clock advances. *)
Definition call {A} (e : xevent) (answer : nat -> reply A) : X A :=
  fun s =>
    let s' := {| MODEL_NAME := MODEL_NAME s; clock := S (clock s) |} in
    match answer (clock s) with
    | CallRaises ex => {| xres := Failed (Base ex); xfinal := s';
                          xtrace := [e] |}
    | Returns a => {| xres := Done a; xfinal := s'; xtrace := [e] |}
    end.

Fixpoint for_items {A} (xs : list A) (body : A -> X unit) : X unit :=
  match xs with
  | [] => ret tt
  | x :: xs' => body x ;; for_items xs' body
  end.

Definition for_each {A} (st : stream A) (body : A -> X unit) : X unit :=
  for_items (items st) body ;;
  match failure st with
  | Some e => raise (Base e)
  | None => ret tt
  end.

(** [input(q)] *)
Definition input (q : question) (stdin : list string)
  : X (string * list string) :=
  emit (Question q) ;;
  match stdin with
  | [] => raise (Base EOFError)
  | l :: rest => ret (l, rest)
  end.

Section Actions.

Variable sv : services.

(** [pre_validation], lines 22-28 *)
Definition pre_validation : X bool :=
  try_except
    (call (Core (Call ollama_list)) (on_list (core sv)) ;; ret true)
    (fun _ => ret false).

(** [confirm_action], lines 30-32 *)
Definition confirm_action (action_name : string) (stdin : list string)
  : X (bool * list string) :=
  '(confirm, rest) <- input (AskConfirm action_name) stdin ;;
  ret (String.eqb (lower confirm) "y", rest).

(** [pull_model], lines 153-163 *)
Definition pull_model (stdin : list string) : X (list string) :=
  '(model_name, rest) <- input AskPullName stdin ;;
  '(confirmed, rest') <-
     confirm_action ("pull '" ++ model_name ++ "'")%string rest ;;
  if confirmed then
    report_line (Pulling model_name) ;;
    try_except
      (pulled <- call (Core (Call (ollama_pull model_name)))
                      (fun t => on_pull (core sv) t model_name) ;;
       for_each pulled
         (fun p => emit (Core (Say (PullStatus (get (status p) ""))))) ;;
       report_line (PullReady model_name))
      (fun e => report_line (PullFailed e)) ;;
    ret rest'
  else ret rest'.

(** [remove_model], lines 165-172 *)
Definition remove_model (stdin : list string) : X (list string) :=
  '(model_name, rest) <- input AskDeleteName stdin ;;
  '(confirmed, rest') <-
     confirm_action ("DELETE '" ++ model_name ++ "'")%string rest ;;
  if confirmed then
    try_except
      (call (Op (ollama_delete model_name))
            (fun t => on_delete sv t model_name) ;;
       report_line (Deleted model_name))
      (fun e => report_line (DeleteError e)) ;;
    ret rest'
  else ret rest'.

(** Line 285: [getattr(m, 'model', m.get('model', m.get('name',
    'Unknown')))]. *)
Definition running_name (m : running_entry) : string :=
  get (run_attr_model m)
      (get (run_key_model m) (get (run_key_name m) "Unknown")).

(** Lines 285-286: [m['size']] raises [KeyError] when the key is missing,
    before anything of the row is printed. *)
Definition running_row (m : running_entry) : X unit :=
  let name := running_name m in
  match run_key_size m with
  | Some size => report_line (RunningRow name size)
  | None => raise (KeyError "size")
  end.

(** [show_ps], lines 277-288 *)
Definition show_ps : X unit :=
  report_line RunningHeader ;;
  try_except
    (response <- call (Op ollama_ps) (on_ps sv) ;;
     let running := get (ps_models response) [] in
     match running with
     | [] => report_line MemoryClear
     | _ => for_items running running_row
     end)
    (fun e => report_line (PsError e)).

(** [stop_model], lines 290-298 *)
Definition stop_model (stdin : list string) : X (list string) :=
  '(model_name, rest) <- input AskStopName stdin ;;
  '(confirmed, rest') <-
     confirm_action ("STOP '" ++ model_name ++ "'")%string rest ;;
  if confirmed then
    try_except
      (call (Op (ollama_generate model_name 0))
            (fun t => on_generate sv t model_name 0%Z) ;;
       report_line (UnloadSent model_name))
      (fun e => report_line (StopError e)) ;;
    ret rest'
  else ret rest'.

(** *** The remote library, lines 34-122 *)

Definition LIBRARY_URL : string := "https://ollama.com/search?o=newest".

(** [a or b] for two tags: a tag found is true even when it is empty. *)
Definition first_tag (a b : option string) : option string :=
  match a with Some _ => a | None => b end.

(** Lines 71 and 103: [item.find('h2') or item.find('span',
    class_='text-lg')], then its text. *)
Definition name_tag (i : item) : option string :=
  first_tag (h2 i) (span_text_lg i).

(** Lines 73 and 104: [item.find('p') or item.find('span',
    class_='max-w-md')], then its text. *)
Definition desc_tag (i : item) : option string :=
  first_tag (p_tag i) (span_max_w_md i).

(** Lines 42 and 59-63: the items of the first selector, or those of the
    second when the first finds none. *)
Definition model_items (pg : page) : list item :=
  match li_py_6 pg with
  | [] => ul_li pg
  | found => found
  end.

(** [fetch_all_remote_data], lines 34-45 *)
Definition fetch_all_remote_data : X (list item) :=
  try_except
    (pg <- call (Op (requests_get LIBRARY_URL))
                (fun t => on_get sv t LIBRARY_URL) ;;
     ret (model_items pg))
    (fun e => report_line (ReachError e) ;; ret []).

(** Lines 69-82: a row for every item that has a name tag. *)
Fixpoint remote_rows (items : list item) (found_any : bool) : X bool :=
  match items with
  | [] => ret found_any
  | i :: rest =>
      match name_tag i with
      | Some name =>
          let description := get (desc_tag i) "No description provided." in
          report_line (RemoteRow name description) ;;
          remote_rows rest true
      | None => remote_rows rest found_any
      end
  end.

(** [list_remote_models], lines 47-88 *)
Definition list_remote_models : X unit :=
  report_line (Querying LIBRARY_URL) ;;
  try_except
    (pg <- call (Op (requests_get LIBRARY_URL))
                (fun t => on_get sv t LIBRARY_URL) ;;
     report_line RemoteHeader ;;
     found_any <- remote_rows (model_items pg) false ;;
     if negb found_any then report_line CouldNotParse else ret tt)
    (fun e => report_line (FetchError e)).

(** [needle in hay] for two strings. *)
Fixpoint contains (needle hay : string) : bool :=
  if String.prefix needle hay then true
  else match hay with
       | EmptyString => false
       | String _ hay' => contains needle hay'
       end.

(** Line 111. *)
Definition matches_query (search_query name desc : string) : bool :=
  contains search_query (lower name) || contains search_query (lower desc).

(** Lines 101-112: the loop that collects the matches. *)
Fixpoint collect_matches (search_query : string) (items : list item)
    (matches : list (string * string)) : list (string * string) :=
  match items with
  | [] => matches
  | i :: rest =>
      match name_tag i with
      | Some name =>
          let desc := get (desc_tag i) "" in
          if matches_query search_query name desc
          then collect_matches search_query rest (matches ++ [(name, desc)])
          else collect_matches search_query rest matches
      | None => collect_matches search_query rest matches
      end
  end.

(** [search_remote_models], lines 90-122 *)
Definition search_remote_models (stdin : list string) : X (list string) :=
  '(line, rest) <- input AskSearch stdin ;;
  let search_query := lower line in
  if is_blank search_query then
    report_line SearchCancelled ;; ret rest
  else
    report_line (Searching search_query) ;;
    items <- fetch_all_remote_data ;;
    let matches := collect_matches search_query items [] in
    match matches with
    | [] => report_line (NoneFound search_query)
    | _ =>
        report_line (Found (length matches)) ;;
        for_items matches
          (fun m => report_line (FoundRow (fst m) (snd m)))
    end ;;
    ret rest.

End Actions.

(** The operations invoked, in order: those of the chat functions and the
    others. *)
Inductive invoked :=
| Daemon (c : daemon_call)
| Other (o : operation).

Fixpoint invocations (t : list xevent) : list invoked :=
  match t with
  | [] => []
  | Core (Call c) :: t' => Daemon c :: invocations t'
  | Op o :: t' => Other o :: invocations t'
  | _ :: t' => invocations t'
  end.


(** What one item contributes to the result of a search. *)
Definition match_of (search_query : string) (i : item)
  : list (string * string) :=
  match name_tag i with
  | Some name =>
      let desc := get (desc_tag i) "" in
      if matches_query search_query name desc then [(name, desc)] else []
  | None => []
  end.

(** The row [list_remote_models] prints for one item, if any. *)
Definition row_of (i : item) : list xevent :=
  match name_tag i with
  | Some name =>
      [Report (RemoteRow name (get (desc_tag i) "No description provided."))]
  | None => []
  end.

(** Some item has a name tag. *)
Definition any_named (items : list item) : bool :=
  existsb (fun i => match name_tag i with Some _ => true | None => false end)
          items.


End Menu.

(** Scenarios for the menu actions. *)
Module MenuScenario.

Definition loaded (name : string) (size : Z) : Menu.running_entry :=
  {| Menu.run_attr_model := None; Menu.run_key_model := Some name;
     Menu.run_key_name := Some name; Menu.run_key_size := Some size |}.

(** An entry without [size]. *)
Definition sizeless (name : string) : Menu.running_entry :=
  {| Menu.run_attr_model := None; Menu.run_key_model := Some name;
     Menu.run_key_name := None; Menu.run_key_size := None |}.

(** A library page of the current layout: three items, one without a
    name. *)
Definition library : Menu.page :=
  {| Menu.li_py_6 :=
       [ {| Menu.h2 := Some "Mistral"; Menu.span_text_lg := None;
            Menu.p_tag := Some "A 7B model"; Menu.span_max_w_md := None |};
         {| Menu.h2 := None; Menu.span_text_lg := None;
            Menu.p_tag := Some "an advertisement";
            Menu.span_max_w_md := None |};
         {| Menu.h2 := None; Menu.span_text_lg := Some "llava";
            Menu.p_tag := None; Menu.span_max_w_md := None |} ];
     Menu.ul_li := [] |}.

(** Everything answers; one of three running entries has no [size]. *)
Definition sv_up : Menu.services :=
  {| Menu.core := Scenario.d_llama3;
     Menu.on_delete := fun _ _ => Returns tt;
     Menu.on_generate := fun _ _ _ => Returns tt;
     Menu.on_ps := fun _ =>
       Returns {| Menu.ps_models :=
                    Some [loaded "llama3:latest" 4000000000;
                          sizeless "phi3:mini";
                          loaded "mistral:7b" 5000000000] |};
     Menu.on_get := fun _ _ => Returns library |}.

(** Nothing answers. *)
Definition sv_down : Menu.services :=
  {| Menu.core := Scenario.d_down;
     Menu.on_delete := fun _ _ => CallRaises Scenario.unreachable;
     Menu.on_generate := fun _ _ _ => CallRaises Scenario.unreachable;
     Menu.on_ps := fun _ => CallRaises Scenario.unreachable;
     Menu.on_get := fun _ _ => CallRaises Scenario.unreachable |}.

End MenuScenario.

(** The lines [search_remote_models] prints for its matches (lines
    114-122). *)
Definition search_report (search_query : string)
    (matches : list (string * string)) : list Menu.xevent :=
  match matches with
  | [] => [Menu.Report (Menu.NoneFound search_query)]
  | _ => Menu.Report (Menu.Found (length matches))
         :: map (fun m => Menu.Report (Menu.FoundRow (fst m) (snd m))) matches
  end.

(** ** Facts about strings *)

Lemma isspace_lower_char (c : ascii) : isspace (lower_char c) = isspace c.
Proof.
  destruct c as [b0 b1 b2 b3 b4 b5 b6 b7].
  destruct b0, b1, b2, b3, b4, b5, b6, b7; reflexivity.
Qed.

Lemma nospace_lower (s : string) : nospace (lower s) = nospace s.
Proof.
  induction s as [|c s IH]; simpl; [reflexivity|].
  now rewrite isspace_lower_char, IH.
Qed.

Lemma lstrip_nospace (s : string) : nospace s = true -> lstrip s = s.
Proof.
  destruct s as [|c s]; simpl; [reflexivity|].
  intros H. apply andb_true_iff in H. destruct H as [H _].
  apply negb_true_iff in H. now rewrite H.
Qed.

Lemma rstrip_nospace (s : string) : nospace s = true -> rstrip s = s.
Proof.
  induction s as [|c s IH]; simpl; [reflexivity|].
  intros H. apply andb_true_iff in H. destruct H as [Hc Hs].
  apply negb_true_iff in Hc. rewrite (IH Hs), Hc.
  now destruct s.
Qed.

Lemma strip_nospace (s : string) : nospace s = true -> strip s = s.
Proof.
  intros H. unfold strip. rewrite (lstrip_nospace s H).
  now apply rstrip_nospace.
Qed.

Lemma str_in_In (x : string) (l : list string) :
  str_in x l = true <-> In x l.
Proof.
  unfold str_in. rewrite existsb_exists. split.
  - intros [y [Hy He]]. apply String.eqb_eq in He. now subst.
  - intros H. exists x. split; [assumption | apply String.eqb_refl].
Qed.

Lemma str_in_not_In (x : string) (l : list string) :
  str_in x l = false <-> ~ In x l.
Proof.
  rewrite <- str_in_In. now destruct (str_in x l).
Qed.

Lemma length_append (s t : string) :
  String.length (s ++ t) = String.length s + String.length t.
Proof. induction s as [|c s IH]; simpl; [reflexivity | now rewrite IH]. Qed.

Lemma append_assoc (s t u : string) :
  ((s ++ t) ++ u = s ++ (t ++ u))%string.
Proof. induction s as [|c s IH]; simpl; [reflexivity | now rewrite IH]. Qed.

Lemma append_empty_r (s : string) : (s ++ "")%string = s.
Proof. induction s as [|c s IH]; simpl; [reflexivity | now rewrite IH]. Qed.

Lemma append_latest_neq (q : string) : (q ++ ":latest")%string <> q.
Proof.
  intros H. apply (f_equal String.length) in H.
  rewrite length_append in H. simpl in H. lia.
Qed.

Lemma is_blank_false (s : string) : is_blank s = false <-> s <> "".
Proof. destruct s; simpl; split; congruence. Qed.

(** ** Facts about traces and loops *)

#[local] Arguments str_in : simpl never.
#[local] Arguments strip : simpl never.
#[local] Arguments lower : simpl never.
#[local] Arguments streaming : simpl never.
#[local] Arguments ensure_model_exists : simpl never.
#[local] Arguments list_installed_models : simpl never.
#[local] Arguments run_llama : simpl never.

Lemma calls_app (t u : list event) : calls (t ++ u) = calls t ++ calls u.
Proof.
  induction t as [|e t IH]; simpl; [reflexivity|].
  destruct e; simpl; now rewrite IH.
Qed.

Lemma calls_says {A} (f : A -> notice) (xs : list A) :
  calls (map (fun x => Say (f x)) xs) = [].
Proof. induction xs; simpl; auto. Qed.

Lemma calls_emits {A} (f : A -> string) (xs : list A) :
  calls (map (fun x => Emit (f x)) xs) = [].
Proof. induction xs; simpl; auto. Qed.

Lemma emitted_app (t u : list event) :
  emitted (t ++ u) = (emitted t ++ emitted u)%string.
Proof.
  induction t as [|e t IH]; simpl; [reflexivity|].
  destruct e; simpl; rewrite IH; trivial.
  now rewrite append_assoc.
Qed.

Lemma emitted_emits (xs : list string) :
  emitted (map Emit xs) = concatenation xs.
Proof.
  induction xs as [|x xs IH]; simpl; [reflexivity | now rewrite IH].
Qed.

(** A loop whose body only writes runs to the end of the list and leaves the
    store alone. *)
Lemma for_items_emit {A} (f : A -> event) (xs : list A) (s : store) :
  for_items xs (fun x => emit (f x)) s
  = {| res := Ret tt; final := s; trace := map f xs |}.
Proof.
  induction xs as [|x xs IH]; simpl; [reflexivity|].
  unfold bind. simpl. now rewrite IH.
Qed.

Lemma for_each_emit {A} (f : A -> event) (st : stream A) (s : store) :
  for_each st (fun x => emit (f x)) s
  = {| res := match failure st with Some e => Raise e | None => Ret tt end;
       final := s;
       trace := map f (items st) |}.
Proof.
  unfold for_each, bind. rewrite for_items_emit. simpl.
  destruct (failure st); simpl; now rewrite app_nil_r.
Qed.

(** ** The availability resolver *)

Lemma absent_iff (q : string) (names : list string) :
  absent q names = true
  <-> ~ In q names /\ ~ In (q ++ ":latest")%string names.
Proof.
  unfold absent. rewrite andb_true_iff, !negb_true_iff, !str_in_not_In.
  reflexivity.
Qed.

(** What the resolver does once the daemon has answered the listing, when
    the model is there. *)
Lemma ensure_present_run (d : daemon) (s : store) (q : string)
    (L : list_response) :
  on_list d (clock s) = Returns L ->
  absent q (model_names L) = false ->
  ensure_model_exists d q s
  = {| res := Ret true; final := tick s;
       trace := [Say (Checking q); Call ollama_list; Say (ReadyToGo q)] |}.
Proof.
  intros HL Hab. unfold absent in Hab.
  unfold ensure_model_exists, try_except, bind, call, say, emit. simpl.
  rewrite HL. simpl. rewrite Hab. reflexivity.
Qed.

(** The same when the model is missing and the pull call returns a
    stream. *)
Lemma ensure_absent_run (d : daemon) (s : store) (q : string)
    (L : list_response) (st : stream progress) :
  on_list d (clock s) = Returns L ->
  absent q (model_names L) = true ->
  on_pull d (S (clock s)) q = Returns st ->
  ensure_model_exists d q s
  = {| res := Ret (match failure st with None => true | Some _ => false end);
       final := tick (tick s);
       trace := [Say (Checking q); Call ollama_list;
                 Say (NotFoundDownloading q); Call (ollama_pull q)]
                ++ map (fun p => Say (PullStatus (get (status p) "")))
                       (items st)
                ++ [Say (match failure st with
                         | None => Downloaded q
                         | Some e => ValidateError e
                         end)] |}.
Proof.
  intros HL Hab HP. unfold absent in Hab.
  unfold ensure_model_exists, try_except, bind, call, say. simpl.
  rewrite HL. simpl. rewrite Hab. simpl. rewrite HP. simpl.
  rewrite for_each_emit. simpl.
  destruct (failure st); simpl; rewrite ?app_nil_r; reflexivity.
Qed.

(** The same when the pull call raises at once. *)
Lemma ensure_refused_run (d : daemon) (s : store) (q : string)
    (L : list_response) (e : exn) :
  on_list d (clock s) = Returns L ->
  absent q (model_names L) = true ->
  on_pull d (S (clock s)) q = CallRaises e ->
  ensure_model_exists d q s
  = {| res := Ret false; final := tick (tick s);
       trace := [Say (Checking q); Call ollama_list;
                 Say (NotFoundDownloading q); Call (ollama_pull q);
                 Say (ValidateError e)] |}.
Proof.
  intros HL Hab HP. unfold absent in Hab.
  unfold ensure_model_exists, try_except, bind, call, say, emit. simpl.
  rewrite HL. simpl. rewrite Hab. simpl. rewrite HP. reflexivity.
Qed.

(** The daemon does not answer the listing: no pull, the result is
    [False]. *)
Lemma ensure_unreachable_run (d : daemon) (s : store) (q : string) (e : exn) :
  on_list d (clock s) = CallRaises e ->
  ensure_model_exists d q s
  = {| res := Ret false; final := tick s;
       trace := [Say (Checking q); Call ollama_list;
                 Say (ValidateError e)] |}.
Proof.
  intros HL.
  unfold ensure_model_exists, try_except, bind, call, say, emit. simpl.
  rewrite HL. reflexivity.
Qed.

(** The pull calls of a resolver run, whatever the daemon answers. *)
Lemma ensure_calls (d : daemon) (s : store) (q : string) (L : list_response) :
  on_list d (clock s) = Returns L ->
  calls (trace (ensure_model_exists d q s))
  = ollama_list :: (if absent q (model_names L) then [ollama_pull q] else []).
Proof.
  intros HL. destruct (absent q (model_names L)) eqn:Hab.
  - destruct (on_pull d (S (clock s)) q) as [e|st] eqn:HP.
    + now rewrite (ensure_refused_run d s q L e HL Hab HP).
    + rewrite (ensure_absent_run d s q L st HL Hab HP). simpl.
      now rewrite calls_app, calls_says.
  - now rewrite (ensure_present_run d s q L HL Hab).
Qed.

(** [ensure_model_exists] always returns a boolean: every exception is
    caught at line 193. *)
Lemma ensure_total (d : daemon) (s : store) (q : string) :
  exists b, res (ensure_model_exists d q s) = Ret b.
Proof.
  destruct (on_list d (clock s)) as [e|L] eqn:HL.
  - rewrite (ensure_unreachable_run d s q e HL). now exists false.
  - destruct (absent q (model_names L)) eqn:Hab.
    + destruct (on_pull d (S (clock s)) q) as [e|st] eqn:HP.
      * rewrite (ensure_refused_run d s q L e HL Hab HP). now exists false.
      * rewrite (ensure_absent_run d s q L st HL Hab HP). simpl. eauto.
    + rewrite (ensure_present_run d s q L HL Hab). now exists true.
Qed.

(** C1. For every listing [L] the daemon returns and every requested name
    [q], [ensure_model_exists] invokes the daemon pull operation if and only
    if neither [q] nor [q + ":latest"] is among the model names of [L], and
    the pull it invokes is that of [q]; when no pull is needed, or when the
    pull stream ends without an exception, it returns [True]. *)
Theorem ensure_model_exists_pull_iff_absent
    (d : daemon) (s : store) (q : string) (L : list_response) :
  on_list d (clock s) = Returns L ->
  let r := ensure_model_exists d q s in
  let names := model_names L in
  ((exists m, In (ollama_pull m) (calls (trace r)))
   <-> ~ In q names /\ ~ In (q ++ ":latest")%string names)
  /\ (forall m, In (ollama_pull m) (calls (trace r)) -> m = q)
  /\ (In q names \/ In (q ++ ":latest")%string names -> res r = Ret true)
  /\ (forall st, on_pull d (S (clock s)) q = Returns st ->
                 failure st = None -> res r = Ret true).
Proof.
  intros HL r names. subst r names.
  pose proof (ensure_calls d s q L HL) as Hc.
  pose proof (absent_iff q (model_names L)) as Hab.
  split; [split | split; [| split]].
  - intros [m Hm]. rewrite Hc in Hm. apply Hab.
    destruct (absent q (model_names L)); [reflexivity|].
    simpl in Hm. destruct Hm as [Hm|[]]. discriminate.
  - intros H. apply Hab in H. rewrite Hc, H. exists q. simpl. auto.
  - intros m Hm. rewrite Hc in Hm.
    destruct (absent q (model_names L)); simpl in Hm.
    + destruct Hm as [Hm|[Hm|[]]]; congruence.
    + destruct Hm as [Hm|[]]. discriminate.
  - intros Hin.
    assert (Hf : absent q (model_names L) = false).
    { destruct (absent q (model_names L)) eqn:E; [|reflexivity].
      apply absent_iff in E. tauto. }
    now rewrite (ensure_present_run d s q L HL Hf).
  - intros st HP Hok.
    destruct (absent q (model_names L)) eqn:E.
    + rewrite (ensure_absent_run d s q L st HL E HP). simpl. now rewrite Hok.
    + now rewrite (ensure_present_run d s q L HL E).
Qed.

(** Witness of C1: [mistral] is not installed, the pull stream of four
    statuses ends cleanly. *)
Lemma ensure_model_exists_pull_iff_absent_witness :
  on_list Scenario.d_llama3 (clock Scenario.fresh)
  = Returns {| resp_models := Some [Scenario.llama3_latest] |}
  /\ In (ollama_pull "mistral")
        (calls (trace (ensure_model_exists Scenario.d_llama3 "mistral"
                                           Scenario.fresh)))
  /\ res (ensure_model_exists Scenario.d_llama3 "mistral" Scenario.fresh)
     = Ret true.
Proof.
  split; [reflexivity|].
  pose proof (ensure_model_exists_pull_iff_absent
                Scenario.d_llama3 Scenario.fresh "mistral"
                {| resp_models := Some [Scenario.llama3_latest] |}
                eq_refl) as H.
  split.
  - vm_compute. auto.
  - apply (proj2 (proj2 (proj2 H)) Scenario.pull_statuses); reflexivity.
Defined.

(** ** The Streaming state *)

(** The chat call returns a stream: the label, then one [Emit] per chunk in
    the order of the stream, then the newline unless the stream broke. *)
Lemma streaming_run (d : daemon) (s : store) (prompt : string)
    (st : stream chunk) :
  on_chat d (clock s) (MODEL_NAME s) [user_message prompt] = Returns st ->
  streaming d prompt s
  = {| res := match failure st with None => Ret tt | Some e => Raise e end;
       final := tick s;
       trace := [Call (ollama_chat (MODEL_NAME s) [user_message prompt]);
                 Say (ReplyLabel (MODEL_NAME s))]
                ++ map (fun c => Emit (chunk_content c)) (items st)
                ++ match failure st with
                   | None => [Say EndOfReply]
                   | Some _ => []
                   end |}.
Proof.
  intros HC. unfold user_message in HC.
  unfold streaming, bind, call, read_MODEL_NAME, say. simpl.
  rewrite HC. simpl. rewrite for_each_emit. simpl.
  destruct (failure st); simpl; rewrite ?app_nil_r; reflexivity.
Qed.

Lemma streaming_refused (d : daemon) (s : store) (prompt : string) (e : exn) :
  on_chat d (clock s) (MODEL_NAME s) [user_message prompt] = CallRaises e ->
  streaming d prompt s
  = {| res := Raise e; final := tick s;
       trace := [Call (ollama_chat (MODEL_NAME s) [user_message prompt])] |}.
Proof.
  intros HC. unfold user_message in HC.
  unfold streaming, bind, call, read_MODEL_NAME. simpl.
  now rewrite HC.
Qed.

(** C2. When the chat stream delivers the chunks of fragments f1..fn and
    ends without an exception, the Streaming state prints, after its label,
    exactly f1, f2, ..., fn, one [print] each and in the order received,
    then the closing newline; the text the fragment loop has written is the
    concatenation f1 || f2 || ... || fn. *)
Theorem streaming_displays_fragments_in_order
    (d : daemon) (s : store) (prompt : string) (chunks : list chunk) :
  on_chat d (clock s) (MODEL_NAME s) [user_message prompt]
  = Returns {| items := chunks; failure := None |} ->
  let fragments := map chunk_content chunks in
  let r := streaming d prompt s in
  res r = Ret tt
  /\ trace r = [Call (ollama_chat (MODEL_NAME s) [user_message prompt]);
                Say (ReplyLabel (MODEL_NAME s))]
               ++ map Emit fragments ++ [Say EndOfReply]
  /\ emitted (trace r) = concatenation fragments.
Proof.
  intros HC fragments r. subst fragments r.
  rewrite (streaming_run d s prompt _ HC). simpl.
  rewrite <- (map_map chunk_content Emit). repeat split.
  rewrite emitted_app, emitted_emits. simpl.
  apply append_empty_r.
Qed.

Lemma streaming_displays_fragments_in_order_witness :
  on_chat Scenario.d_llama3 (clock Scenario.chatting)
          (MODEL_NAME Scenario.chatting) [user_message "hi"]
  = Returns {| items := items Scenario.hello; failure := None |}
  /\ emitted (trace (streaming Scenario.d_llama3 "hi" Scenario.chatting))
     = "Hello!".
Proof.
  split; [reflexivity|].
  exact (proj2 (proj2 (streaming_displays_fragments_in_order
                         Scenario.d_llama3 Scenario.chatting "hi"
                         (items Scenario.hello) eq_refl))).
Defined.

(** ** One step of the chat loop *)

Lemma prompt_step_exit (d : daemon) (s : store) (line : string) :
  str_in (lower (strip line)) exit_keywords = true ->
  prompt_step d line s
  = {| res := Ret Terminated; final := s;
       trace := [Ask PromptYou; Say ReturningToMainMenu] |}.
Proof.
  intros H. unfold prompt_step, bind, emit. simpl.
  rewrite H. reflexivity.
Qed.

Lemma prompt_step_chat (d : daemon) (s : store) (line : string)
    (st : stream chunk) :
  str_in (lower (strip line)) exit_keywords = false ->
  on_chat d (clock s) (MODEL_NAME s) [user_message (strip line)]
  = Returns st ->
  prompt_step d line s
  = {| res := Ret (match failure st with
                   | None => SubMenu
                   | Some _ => Terminated
                   end);
       final := tick s;
       trace := [Ask PromptYou;
                 Call (ollama_chat (MODEL_NAME s)
                                   [user_message (strip line)]);
                 Say (ReplyLabel (MODEL_NAME s))]
                ++ map (fun c => Emit (chunk_content c)) (items st)
                ++ [Say (match failure st with
                         | None => EndOfReply
                         | Some e => ChatError e
                         end)] |}.
Proof.
  intros H HC. unfold prompt_step, bind, emit, try_except.
  cbn [res final trace]. rewrite H.
  rewrite (streaming_run d s _ st HC). unfold ret. simpl.
  destruct (failure st); simpl; rewrite ?app_nil_r; reflexivity.
Qed.

Lemma prompt_step_refused (d : daemon) (s : store) (line : string) (e : exn) :
  str_in (lower (strip line)) exit_keywords = false ->
  on_chat d (clock s) (MODEL_NAME s) [user_message (strip line)]
  = CallRaises e ->
  prompt_step d line s
  = {| res := Ret Terminated; final := tick s;
       trace := [Ask PromptYou;
                 Call (ollama_chat (MODEL_NAME s)
                                   [user_message (strip line)]);
                 Say (ChatError e)] |}.
Proof.
  intros H HC. unfold prompt_step, bind, emit, try_except.
  cbn [res final trace]. rewrite H.
  rewrite (streaming_refused d s _ e HC). reflexivity.
Qed.

(** The daemon operations of one prompt: none for an exit keyword, one chat
    request carrying the stripped line otherwise. *)
Lemma prompt_step_calls (d : daemon) (s : store) (line : string) :
  calls (trace (prompt_step d line s))
  = if str_in (lower (strip line)) exit_keywords then []
    else [ollama_chat (MODEL_NAME s) [user_message (strip line)]].
Proof.
  destruct (str_in (lower (strip line)) exit_keywords) eqn:H.
  - now rewrite (prompt_step_exit d s line H).
  - destruct (on_chat d (clock s) (MODEL_NAME s)
                      [user_message (strip line)]) as [e|st] eqn:HC.
    + now rewrite (prompt_step_refused d s line e H HC).
    + rewrite (prompt_step_chat d s line st H HC). simpl.
      now rewrite calls_app, calls_emits.
Qed.

(** A prompt never raises and never comes back to [AwaitingPrompt]. *)
Lemma prompt_step_res (d : daemon) (s : store) (line : string) :
  res (prompt_step d line s) = Ret SubMenu
  \/ res (prompt_step d line s) = Ret Terminated.
Proof.
  destruct (str_in (lower (strip line)) exit_keywords) eqn:H.
  - rewrite (prompt_step_exit d s line H). now right.
  - destruct (on_chat d (clock s) (MODEL_NAME s)
                      [user_message (strip line)]) as [e|st] eqn:HC.
    + rewrite (prompt_step_refused d s line e H HC). now right.
    + rewrite (prompt_step_chat d s line st H HC). simpl.
      destruct (failure st); auto.
Qed.

Lemma submenu_step_run (s : store) (line : string) :
  submenu_step line s
  = {| res := Ret (if String.eqb (strip (lower line)) "c" then AwaitingPrompt
                   else if String.eqb (strip (lower line)) "q"
                        then Terminated else SubMenu);
       final := s;
       trace := Ask PromptSubMenu
                :: (if String.eqb (strip (lower line)) "c" then []
                    else if String.eqb (strip (lower line)) "q"
                         then [Say ReturningToMainMenu]
                         else [Say InvalidInput]) |}.
Proof.
  unfold submenu_step, bind, emit, say, emit. simpl.
  destruct (String.eqb (strip (lower line)) "c"); [reflexivity|].
  destruct (String.eqb (strip (lower line)) "q"); reflexivity.
Qed.

Lemma step_submenu_run (d : daemon) (s : store) (line : string) :
  step d SubMenu line s
  = {| res := Ret (if String.eqb (strip (lower line)) "c" then AwaitingPrompt
                   else if String.eqb (strip (lower line)) "q"
                        then Terminated else SubMenu);
       final := s;
       trace := Ask PromptSubMenu
                :: (if String.eqb (strip (lower line)) "c" then []
                    else if String.eqb (strip (lower line)) "q"
                         then [Say ReturningToMainMenu]
                         else [Say InvalidInput]) |}.
Proof. apply submenu_step_run. Qed.

(** ** Sequencing *)

Lemma res_bind {A B} (m : M A) (k : A -> M B) (s : store) :
  res (bind m k s)
  = match res (m s) with
    | Ret a => res (k a (final (m s)))
    | Raise e => Raise e
    end.
Proof. unfold bind. now destruct (res (m s)). Qed.

Lemma final_bind {A B} (m : M A) (k : A -> M B) (s : store) :
  final (bind m k s)
  = match res (m s) with
    | Ret a => final (k a (final (m s)))
    | Raise _ => final (m s)
    end.
Proof. unfold bind. now destruct (res (m s)). Qed.

Lemma trace_bind {A B} (m : M A) (k : A -> M B) (s : store) :
  trace (bind m k s)
  = trace (m s) ++ match res (m s) with
                   | Ret a => trace (k a (final (m s)))
                   | Raise _ => []
                   end.
Proof. unfold bind. destruct (res (m s)); simpl; now rewrite ?app_nil_r. Qed.

Lemma chat_loop_cons (d : daemon) (c : control) (line : string)
    (rest : list string) :
  c <> Terminated ->
  chat_loop d c (line :: rest)
  = (c' <- step d c line ;; chat_loop d c' rest).
Proof. destruct c; [reflexivity | reflexivity | congruence]. Qed.

Lemma chat_loop_terminated (d : daemon) (stdin : list string) (s : store) :
  chat_loop d Terminated stdin s
  = {| res := Ret stdin; final := s; trace := [] |}.
Proof. destruct stdin; reflexivity. Qed.

(** ** The global [MODEL_NAME] during a chat *)

Lemma keeps_ret {A} (a : A) : keeps_model (ret a).
Proof. now intros s. Qed.

Lemma keeps_raise {A} (e : exn) : keeps_model (@raise A e).
Proof. now intros s. Qed.

Lemma keeps_emit (e : event) : keeps_model (emit e).
Proof. now intros s. Qed.

Lemma keeps_say (n : notice) : keeps_model (say n).
Proof. now intros s. Qed.

Lemma keeps_read : keeps_model read_MODEL_NAME.
Proof. now intros s. Qed.

Lemma keeps_call {A} (c : daemon_call) (answer : nat -> reply A) :
  keeps_model (call c answer).
Proof. intros s. unfold call. now destruct (answer (clock s)). Qed.

Lemma keeps_bind {A B} (m : M A) (k : A -> M B) :
  keeps_model m -> (forall a, keeps_model (k a)) -> keeps_model (bind m k).
Proof.
  intros Hm Hk s. rewrite final_bind.
  destruct (res (m s)); [rewrite Hk|]; apply Hm.
Qed.

Lemma keeps_try {A} (m : M A) (h : exn -> M A) :
  keeps_model m -> (forall e, keeps_model (h e)) ->
  keeps_model (try_except m h).
Proof.
  intros Hm Hh s. unfold try_except.
  destruct (res (m s)); simpl; [|rewrite Hh]; apply Hm.
Qed.

Lemma keeps_for_items {A} (xs : list A) (body : A -> M unit) :
  (forall x, keeps_model (body x)) -> keeps_model (for_items xs body).
Proof.
  intros Hb. induction xs as [|x xs IH]; simpl.
  - apply keeps_ret.
  - apply keeps_bind; auto.
Qed.

Lemma keeps_for_each {A} (st : stream A) (body : A -> M unit) :
  (forall x, keeps_model (body x)) -> keeps_model (for_each st body).
Proof.
  intros Hb. unfold for_each. apply keeps_bind.
  - now apply keeps_for_items.
  - intros _. destruct (failure st); [apply keeps_raise | apply keeps_ret].
Qed.

Create HintDb keeps.
#[local] Hint Resolve keeps_ret keeps_raise keeps_emit keeps_say keeps_read
  keeps_call keeps_bind keeps_try keeps_for_items keeps_for_each : keeps.

Lemma keeps_streaming (d : daemon) (prompt : string) :
  keeps_model (streaming d prompt).
Proof. unfold streaming. auto 12 with keeps. Qed.

Lemma keeps_step (d : daemon) (c : control) (line : string) :
  keeps_model (step d c line).
Proof.
  destruct c; simpl.
  - unfold prompt_step. apply keeps_bind; [auto with keeps|]. intros _.
    destruct (str_in (lower (strip line)) exit_keywords).
    + auto with keeps.
    + apply keeps_try; [|auto with keeps].
      apply keeps_bind; [apply keeps_streaming | auto with keeps].
  - unfold submenu_step. apply keeps_bind; [auto with keeps|]. intros _.
    destruct (String.eqb (strip (lower line)) "c"); [auto with keeps|].
    destruct (String.eqb (strip (lower line)) "q"); auto with keeps.
  - auto with keeps.
Qed.

Lemma keeps_at_eof (c : control) : keeps_model (at_eof c).
Proof. destruct c; simpl; auto with keeps. Qed.

Lemma keeps_chat_loop (d : daemon) (stdin : list string) :
  forall c, keeps_model (chat_loop d c stdin).
Proof.
  induction stdin as [|line rest IH]; intros c.
  - destruct c; cbn [chat_loop]; try apply keeps_ret;
      (apply keeps_bind; [apply keeps_at_eof | intros _; apply keeps_ret]).
  - destruct c; cbn [chat_loop]; try apply keeps_ret;
      (apply keeps_bind; [apply keeps_step | intros c'; apply IH]).
Qed.

Lemma keeps_ensure (d : daemon) (q : string) :
  keeps_model (ensure_model_exists d q).
Proof.
  unfold ensure_model_exists.
  apply keeps_bind; [auto with keeps|]. intros _.
  apply keeps_try; [|auto with keeps].
  apply keeps_bind; [auto with keeps|]. intros response.
  apply keeps_bind; [|auto with keeps].
  destruct (negb (str_in q (model_names response))
            && negb (str_in (q ++ ":latest")%string (model_names response)));
    auto 12 with keeps.
Qed.

Lemma keeps_run_llama (d : daemon) (stdin : list string) :
  keeps_model (run_llama d stdin).
Proof.
  unfold run_llama.
  apply keeps_bind; [auto with keeps|]. intros model.
  apply keeps_bind; [apply keeps_ensure|]. intros ready.
  destruct ready; simpl; [|auto with keeps].
  apply keeps_bind; [auto with keeps|]. intros model'.
  apply keeps_bind; [auto with keeps|]. intros _.
  apply keeps_chat_loop.
Qed.

(** ** The chat session *)

(** A line that lower-cases to an exit keyword has no white space to
    strip, so the test of line 244 sees the keyword. *)
Lemma exit_keyword_after_strip (line : string) :
  In (lower line) exit_keywords ->
  str_in (lower (strip line)) exit_keywords = true.
Proof.
  intros H.
  assert (Hn : nospace (lower line) = true).
  { unfold exit_keywords in H. simpl in H.
    destruct H as [H|[H|[H|[]]]]; rewrite <- H; reflexivity. }
  rewrite nospace_lower in Hn.
  rewrite (strip_nospace line Hn). now apply str_in_In.
Qed.

(** C4. At AwaitingPrompt, a line that matches one of [exit], [quit], [q]
    without regard to case ends the session at once: the step goes to
    Terminated, the chat loop returns with the rest of standard input
    unread, and no daemon operation is invoked. *)
Theorem exit_keyword_terminates_without_daemon
    (d : daemon) (s : store) (line : string) (rest : list string) :
  In (lower line) exit_keywords ->
  let r := step d AwaitingPrompt line s in
  let session := chat_loop d AwaitingPrompt (line :: rest) s in
  res r = Ret Terminated
  /\ calls (trace r) = []
  /\ res session = Ret rest
  /\ trace session = [Ask PromptYou; Say ReturningToMainMenu]
  /\ calls (trace session) = [].
Proof.
  intros H r session. subst r session.
  apply exit_keyword_after_strip in H.
  rewrite chat_loop_cons by discriminate.
  unfold bind. cbn [step].
  rewrite (prompt_step_exit d s line H). cbn [res final trace].
  rewrite chat_loop_terminated. simpl. repeat split.
Qed.

Lemma exit_keyword_terminates_without_daemon_witness :
  In (lower "QUIT") exit_keywords
  /\ res (chat_loop Scenario.d_llama3 AwaitingPrompt ["QUIT"; "hello"]
                    Scenario.chatting) = Ret ["hello"]
  /\ calls (trace (chat_loop Scenario.d_llama3 AwaitingPrompt
                             ["QUIT"; "hello"] Scenario.chatting)) = [].
Proof.
  assert (H : In (lower "QUIT") exit_keywords) by (vm_compute; auto).
  split; [exact H|].
  pose proof (exit_keyword_terminates_without_daemon
                Scenario.d_llama3 Scenario.chatting "QUIT" ["hello"] H) as T.
  split; [exact (proj1 (proj2 (proj2 T)))
         | exact (proj2 (proj2 (proj2 (proj2 T))))].
Defined.

(** C5. When the chat stream raises after the chunks of fragments f1..fk,
    the fragments already printed stay on the terminal as they were,
    followed by the failure notice of line 274 and nothing else; the step
    goes to Terminated and the chat loop returns without reading the rest
    of standard input: the one error ends the session. *)
Theorem chat_stream_error_ends_session
    (d : daemon) (s : store) (line : string) (rest : list string)
    (chunks : list chunk) (e : exn) :
  str_in (lower (strip line)) exit_keywords = false ->
  on_chat d (clock s) (MODEL_NAME s) [user_message (strip line)]
  = Returns {| items := chunks; failure := Some e |} ->
  let fragments := map chunk_content chunks in
  let session := chat_loop d AwaitingPrompt (line :: rest) s in
  res (step d AwaitingPrompt line s) = Ret Terminated
  /\ res session = Ret rest
  /\ trace session
     = [Ask PromptYou;
        Call (ollama_chat (MODEL_NAME s) [user_message (strip line)]);
        Say (ReplyLabel (MODEL_NAME s))]
       ++ map Emit fragments ++ [Say (ChatError e)]
  /\ emitted (trace session) = concatenation fragments.
Proof.
  intros H HC fragments session. subst fragments session.
  rewrite chat_loop_cons by discriminate.
  unfold bind. cbn [step].
  rewrite (prompt_step_chat d s line _ H HC). cbn [res final trace failure].
  rewrite chat_loop_terminated. cbn [res final trace items].
  rewrite app_nil_r, <- (map_map chunk_content Emit).
  repeat split. simpl.
  rewrite emitted_app, emitted_emits. simpl. apply append_empty_r.
Qed.

Lemma chat_stream_error_ends_session_witness :
  str_in (lower (strip "hi")) exit_keywords = false
  /\ on_chat Scenario.d_broken (clock Scenario.chatting)
             (MODEL_NAME Scenario.chatting) [user_message (strip "hi")]
     = Returns {| items := [Scenario.fragment "Hel"];
                  failure := Some (DaemonError "connection reset") |}
  /\ res (chat_loop Scenario.d_broken AwaitingPrompt ["hi"; "again"]
                    Scenario.chatting) = Ret ["again"]
  /\ emitted (trace (chat_loop Scenario.d_broken AwaitingPrompt
                               ["hi"; "again"] Scenario.chatting)) = "Hel".
Proof.
  split; [reflexivity|]. split; [reflexivity|].
  pose proof (chat_stream_error_ends_session
                Scenario.d_broken Scenario.chatting "hi" ["again"]
                [Scenario.fragment "Hel"] (DaemonError "connection reset")
                eq_refl eq_refl) as T.
  split; [exact (proj1 (proj2 T)) | exact (proj2 (proj2 (proj2 T)))].
Defined.

(** C3, as the code has it. The sub-menu compares the line after
    lower-casing and stripping it.  When the normalised line is neither [c]
    nor [q] the step prints the rejection, changes nothing and stays in
    SubMenu, so that the loop shows the sub-menu prompt again for the next
    line; it goes to Terminated exactly when the normalised line is [q] and
    to AwaitingPrompt exactly when it is [c]; no daemon operation is
    invoked. *)
Theorem submenu_step_on_normalised_choice
    (d : daemon) (s : store) (line : string) (rest : list string) :
  let choice := strip (lower line) in
  let r := step d SubMenu line s in
  (choice <> "c" -> choice <> "q" ->
   r = {| res := Ret SubMenu; final := s;
          trace := [Ask PromptSubMenu; Say InvalidInput] |}
   /\ res (chat_loop d SubMenu (line :: rest) s)
      = res (chat_loop d SubMenu rest s)
   /\ trace (chat_loop d SubMenu (line :: rest) s)
      = [Ask PromptSubMenu; Say InvalidInput]
        ++ trace (chat_loop d SubMenu rest s))
  /\ (res r = Ret Terminated <-> choice = "q")
  /\ (res r = Ret AwaitingPrompt <-> choice = "c")
  /\ final r = s
  /\ calls (trace r) = [].
Proof.
  intros choice r. subst r.
  rewrite chat_loop_cons by discriminate.
  rewrite res_bind, trace_bind, (step_submenu_run d s line).
  fold choice. cbn [res final trace].
  destruct (String.eqb_spec choice "c") as [Hc|Hc];
    [|destruct (String.eqb_spec choice "q") as [Hq|Hq]].
  - split; [congruence|]. rewrite Hc.
    repeat split; try reflexivity; intros; congruence.
  - split; [congruence|]. rewrite Hq.
    repeat split; try reflexivity; intros; congruence.
  - repeat split; try reflexivity; intros; congruence.
Qed.

Lemma submenu_step_on_normalised_choice_witness :
  strip (lower "x") <> "c" /\ strip (lower "x") <> "q"
  /\ step Scenario.d_llama3 SubMenu "x" Scenario.chatting
     = {| res := Ret SubMenu; final := Scenario.chatting;
          trace := [Ask PromptSubMenu; Say InvalidInput] |}.
Proof.
  assert (Hc : strip (lower "x") <> "c") by (vm_compute; discriminate).
  assert (Hq : strip (lower "x") <> "q") by (vm_compute; discriminate).
  split; [exact Hc|]. split; [exact Hq|].
  exact (proj1 (proj1 (submenu_step_on_normalised_choice
                         Scenario.d_llama3 Scenario.chatting "x" [])
                      Hc Hq)).
Defined.

(** C3 as stated fails: the line [Q] is neither [c] nor [q], and the
    session is Terminated by it; the line [ C ] sends it back to
    AwaitingPrompt. *)
Lemma submenu_accepts_unequal_input :
  "Q" <> "c" /\ "Q" <> "q"
  /\ res (step Scenario.d_llama3 SubMenu "Q" Scenario.chatting)
     = Ret Terminated
  /\ " C " <> "c" /\ " C " <> "q"
  /\ res (step Scenario.d_llama3 SubMenu " C " Scenario.chatting)
     = Ret AwaitingPrompt.
Proof. repeat split; try discriminate. Qed.

(** C6, as the code has it. At AwaitingPrompt a line that is blank after
    stripping is not an exit keyword: the step sends one chat request whose
    single message has the empty content, and goes on to SubMenu when the
    stream ends cleanly; it never stays in AwaitingPrompt. *)
Theorem blank_prompt_is_sent_to_daemon
    (d : daemon) (s : store) (line : string) :
  strip line = "" ->
  let r := step d AwaitingPrompt line s in
  calls (trace r) = [ollama_chat (MODEL_NAME s) [user_message ""]]
  /\ res r <> Ret AwaitingPrompt
  /\ (forall st, on_chat d (clock s) (MODEL_NAME s) [user_message ""]
                 = Returns st ->
                 failure st = None -> res r = Ret SubMenu).
Proof.
  intros Hb r. subst r. cbn [step].
  assert (Hk : str_in (lower (strip line)) exit_keywords = false)
    by now rewrite Hb.
  split; [|split].
  - now rewrite prompt_step_calls, Hk, Hb.
  - destruct (prompt_step_res d s line) as [H|H]; rewrite H; discriminate.
  - intros st HC Hok. rewrite <- Hb in HC.
    rewrite (prompt_step_chat d s line st Hk HC). cbn [res].
    now rewrite Hok.
Qed.

Lemma blank_prompt_is_sent_to_daemon_witness :
  strip "   " = ""
  /\ calls (trace (step Scenario.d_llama3 AwaitingPrompt "   "
                        Scenario.chatting))
     = [ollama_chat "llama3:latest" [user_message ""]].
Proof.
  split; [reflexivity|].
  exact (proj1 (blank_prompt_is_sent_to_daemon
                  Scenario.d_llama3 Scenario.chatting "   " eq_refl)).
Defined.

(** C6 as stated fails: on the empty line the daemon chat operation is
    invoked with the empty prompt and the session leaves AwaitingPrompt for
    SubMenu. *)
Lemma blank_prompt_starts_a_turn :
  strip "" = ""
  /\ In (ollama_chat "llama3:latest" [user_message ""])
        (calls (trace (step Scenario.d_llama3 AwaitingPrompt ""
                            Scenario.chatting)))
  /\ res (step Scenario.d_llama3 AwaitingPrompt "" Scenario.chatting)
     = Ret SubMenu
  /\ emitted (trace (step Scenario.d_llama3 AwaitingPrompt ""
                          Scenario.chatting)) = "Hello!".
Proof. repeat split. vm_compute. auto. Qed.

(** ** Listing the installed models *)

Lemma list_rows_run (ms : list model_entry) :
  forall (names : list string) (s : store),
  list_rows ms names s
  = {| res := Ret (names ++ map listed_name ms); final := s;
       trace := map table_row ms |}.
Proof.
  induction ms as [|m ms IH]; intros names s.
  - simpl. unfold ret. now rewrite app_nil_r.
  - cbn [list_rows]. unfold bind, say, emit. cbn [res final trace].
    rewrite IH. cbn [res final trace]. rewrite <- app_assoc. reflexivity.
Qed.

Lemma list_installed_reachable (d : daemon) (s : store) (L : list_response) :
  on_list d (clock s) = Returns L ->
  list_installed_models d s
  = {| res := Ret (map listed_name (get (resp_models L) []));
       final := tick s;
       trace := [Say InstalledHeader; Call ollama_list]
                ++ match get (resp_models L) [] with
                   | [] => []
                   | ms => [Say TableHeader; Say TableRule]
                           ++ map table_row ms
                   end |}.
Proof.
  intros HL.
  unfold list_installed_models, try_except, bind, call, say, emit.
  cbn [res final trace]. rewrite HL. cbn [res final trace].
  destruct (get (resp_models L) []) as [|m ms]; [reflexivity|].
  rewrite list_rows_run. reflexivity.
Qed.

Lemma list_installed_unreachable (d : daemon) (s : store) (e : exn) :
  on_list d (clock s) = CallRaises e ->
  list_installed_models d s
  = {| res := Ret []; final := tick s;
       trace := [Say InstalledHeader; Call ollama_list;
                 Say (ListError e)] |}.
Proof.
  intros HL.
  unfold list_installed_models, try_except, bind, call, say, emit.
  cbn [res final trace]. rewrite HL. reflexivity.
Qed.

(** Whatever the daemon does, the listing returns a list, after exactly one
    daemon call. *)
Lemma list_installed_total (d : daemon) (s : store) :
  (exists names, res (list_installed_models d s) = Ret names)
  /\ final (list_installed_models d s) = tick s
  /\ calls (trace (list_installed_models d s)) = [ollama_list].
Proof.
  destruct (on_list d (clock s)) as [e|L] eqn:HL.
  - rewrite (list_installed_unreachable d s e HL). simpl. eauto.
  - rewrite (list_installed_reachable d s L HL). cbn [res final trace].
    split; [eauto|]. split; [reflexivity|].
    destruct (get (resp_models L) []) as [|m ms]; [reflexivity|].
    simpl. unfold table_row.
    now rewrite (calls_says
      (fun m => TableRow (listed_name m) (get (key_size m) 0%Z)
                         (prefix_of 12 (get (key_digest m) "N/A")))).
Qed.

(** C7, as the code has it. [list_installed_models] never fails: when the
    daemon cannot be contacted it prints the error notice of line 150 and
    returns the empty list; when the daemon answers with no models it
    returns the empty list without that notice.  The returned value is the
    same in both cases; the notice is the only difference. *)
Theorem list_installed_models_unreachable_or_empty (d : daemon) (s : store) :
  (forall e, on_list d (clock s) = CallRaises e ->
     list_installed_models d s
     = {| res := Ret []; final := tick s;
          trace := [Say InstalledHeader; Call ollama_list;
                    Say (ListError e)] |})
  /\ (forall L, on_list d (clock s) = Returns L ->
        get (resp_models L) [] = [] ->
        list_installed_models d s
        = {| res := Ret []; final := tick s;
             trace := [Say InstalledHeader; Call ollama_list] |})
  /\ (exists names, res (list_installed_models d s) = Ret names).
Proof.
  split; [|split].
  - intros e HL. now apply list_installed_unreachable.
  - intros L HL He. rewrite (list_installed_reachable d s L HL).
    now rewrite He.
  - apply list_installed_total.
Qed.

Lemma list_installed_models_unreachable_or_empty_witness :
  on_list Scenario.d_down (clock Scenario.fresh)
  = CallRaises Scenario.unreachable
  /\ trace (list_installed_models Scenario.d_down Scenario.fresh)
     = [Say InstalledHeader; Call ollama_list;
        Say (ListError Scenario.unreachable)]
  /\ on_list Scenario.d_empty (clock Scenario.fresh)
     = Returns {| resp_models := Some [] |}
  /\ trace (list_installed_models Scenario.d_empty Scenario.fresh)
     = [Say InstalledHeader; Call ollama_list].
Proof.
  split; [reflexivity|]. split.
  - exact (f_equal trace
             (proj1 (list_installed_models_unreachable_or_empty
                       Scenario.d_down Scenario.fresh)
                    Scenario.unreachable eq_refl)).
  - split; [reflexivity|].
    exact (f_equal trace
             (proj1 (proj2 (list_installed_models_unreachable_or_empty
                              Scenario.d_empty Scenario.fresh))
                    {| resp_models := Some [] |} eq_refl eq_refl)).
Defined.

(** C7 as stated fails: with the daemon unreachable the function does not
    fail, it returns the empty list, the very value it returns when the
    daemon is reachable and has no models. *)
Lemma unreachable_listing_returns_empty :
  on_list Scenario.d_down (clock Scenario.fresh)
  = CallRaises Scenario.unreachable
  /\ res (list_installed_models Scenario.d_down Scenario.fresh) = Ret []
  /\ res (list_installed_models Scenario.d_down Scenario.fresh)
     = res (list_installed_models Scenario.d_empty Scenario.fresh).
Proof. repeat split. Qed.

(** ** The requests of a session *)

Lemma ensure_no_chat (d : daemon) (s : store) (q model : string)
    (msgs : list request_message) :
  ~ In (ollama_chat model msgs) (calls (trace (ensure_model_exists d q s))).
Proof.
  destruct (on_list d (clock s)) as [e|L] eqn:HL.
  - rewrite (ensure_unreachable_run d s q e HL). simpl.
    intros [H|[]]. discriminate.
  - rewrite (ensure_calls d s q L HL).
    destruct (absent q (model_names L)); simpl;
      intuition discriminate.
Qed.

Lemma at_eof_calls (c : control) (s : store) : calls (trace (at_eof c s)) = [].
Proof. destruct c; reflexivity. Qed.

Lemma step_chat_calls (d : daemon) (c : control) (line : string) (s : store)
    (model : string) (msgs : list request_message) :
  In (ollama_chat model msgs) (calls (trace (step d c line s))) ->
  model = MODEL_NAME s /\ msgs = [user_message (strip line)].
Proof.
  destruct c; cbn [step].
  - rewrite prompt_step_calls.
    destruct (str_in (lower (strip line)) exit_keywords); simpl.
    + intros [].
    + intros [H|[]]. inversion H. auto.
  - rewrite submenu_step_run. cbn [trace].
    destruct (String.eqb (strip (lower line)) "c"); simpl; [intros []|].
    destruct (String.eqb (strip (lower line)) "q"); simpl; intros [].
  - simpl. intros [].
Qed.

Lemma chat_loop_chat_calls (d : daemon) (model : string)
    (msgs : list request_message) (stdin : list string) :
  forall (c : control) (s : store),
  In (ollama_chat model msgs) (calls (trace (chat_loop d c stdin s))) ->
  model = MODEL_NAME s
  /\ exists line, In line stdin /\ msgs = [user_message (strip line)].
Proof.
  induction stdin as [|line rest IH]; intros c s.
  - destruct c; cbn [chat_loop]; try (simpl; intros []);
      rewrite trace_bind, calls_app, at_eof_calls;
      destruct (res (at_eof _ s)); simpl; intros [].
  - destruct (control_eq_dec c Terminated) as [->|Hc].
    + rewrite chat_loop_terminated. simpl. intros [].
    + rewrite (chat_loop_cons d c line rest Hc).
      rewrite trace_bind, calls_app. intros H.
      apply in_app_or in H. destruct H as [H|H].
      * apply step_chat_calls in H. destruct H as [Hm Hs].
        split; [assumption|]. exists line. split; [now left | assumption].
      * destruct (res (step d c line s)) as [c'|e]; [|destruct H].
        apply IH in H. destruct H as [Hm [l [Hl Hs]]].
        rewrite (keeps_step d c line s) in Hm.
        split; [assumption|]. exists l. split; [now right | assumption].
Qed.

(** What [run_llama] does around the resolver and the chat loop. *)
Lemma run_llama_run (d : daemon) (stdin : list string) (s : store) :
  run_llama d stdin s
  = let e := ensure_model_exists d (MODEL_NAME s) s in
    match res e with
    | Ret true =>
        let r := chat_loop d AwaitingPrompt stdin (final e) in
        {| res := res r; final := final r;
           trace := trace e
                    ++ [Say (ChatStarted (MODEL_NAME (final e)))]
                    ++ trace r |}
    | Ret false => {| res := Ret stdin; final := final e; trace := trace e |}
    | Raise ex => {| res := Raise ex; final := final e; trace := trace e |}
    end.
Proof.
  unfold run_llama, bind, read_MODEL_NAME, say, emit.
  cbn [res final trace app].
  destruct (res (ensure_model_exists d (MODEL_NAME s) s)) as [[|]|ex];
    cbn [negb res final trace app]; unfold ret; rewrite ?app_nil_r;
    reflexivity.
Qed.

(** C8. Every chat request of a session carries exactly one message, of
    role [user], whose content is the prompt of the turn that sends it (the
    stripped line just read), for the model in [MODEL_NAME]; nothing of an
    earlier turn is in it. *)
Theorem chat_request_is_single_user_message
    (d : daemon) (s : store) (model : string) (msgs : list request_message) :
  (forall line,
     In (ollama_chat model msgs)
        (calls (trace (step d AwaitingPrompt line s))) ->
     model = MODEL_NAME s
     /\ msgs = [{| msg_role := "user"; msg_content := strip line |}])
  /\ (forall stdin,
        In (ollama_chat model msgs) (calls (trace (run_llama d stdin s))) ->
        model = MODEL_NAME s
        /\ exists line,
             In line stdin
             /\ msgs = [{| msg_role := "user"; msg_content := strip line |}]).
Proof.
  split.
  - intros line H. now apply step_chat_calls in H.
  - intros stdin. rewrite run_llama_run. cbv zeta.
    pose proof (keeps_ensure d (MODEL_NAME s) s) as Hk.
    pose proof (ensure_no_chat d s (MODEL_NAME s) model msgs) as Hn.
    destruct (res (ensure_model_exists d (MODEL_NAME s) s)) as [[|]|e];
      cbn [trace]; intros H; try contradiction.
    rewrite !calls_app in H. cbn [calls app] in H.
    apply in_app_or in H. destruct H as [H|H]; [contradiction|].
    apply chat_loop_chat_calls in H. now rewrite Hk in H.
Qed.

Lemma chat_request_is_single_user_message_witness :
  In (ollama_chat "llama3:latest" [user_message "hi"])
     (calls (trace (run_llama Scenario.d_llama3 [" hi "; "q"]
                              Scenario.chatting)))
  /\ exists line,
       In line [" hi "; "q"]
       /\ [user_message "hi"]
          = [{| msg_role := "user"; msg_content := strip line |}].
Proof.
  assert (H : In (ollama_chat "llama3:latest" [user_message "hi"])
                 (calls (trace (run_llama Scenario.d_llama3 [" hi "; "q"]
                                          Scenario.chatting))))
    by (vm_compute; auto).
  split; [exact H|].
  exact (proj2 (proj2 (chat_request_is_single_user_message
                         Scenario.d_llama3 Scenario.chatting
                         "llama3:latest" [user_message "hi"])
                      [" hi "; "q"] H)).
Defined.

(** ** The model selection flow *)

Lemma matched_model_exact (q : string) (names : list string) :
  In q names -> matched_model q names = q.
Proof.
  intros H. unfold matched_model. apply str_in_In in H. now rewrite H.
Qed.

Lemma matched_model_latest (q : string) (names : list string) :
  ~ In q names -> In (q ++ ":latest")%string names ->
  matched_model q names = (q ++ ":latest")%string.
Proof.
  intros Hn H. unfold matched_model.
  apply str_in_not_In in Hn. apply str_in_In in H. now rewrite Hn, H.
Qed.

Lemma matched_model_none (q : string) (names : list string) :
  ~ In q names -> ~ In (q ++ ":latest")%string names ->
  matched_model q names = "".
Proof.
  intros Hn H. unfold matched_model.
  apply str_in_not_In in Hn. apply str_in_not_In in H. now rewrite Hn, H.
Qed.

(** Nothing is listed: the notice of line 206, and the function returns
    before its [input]. *)
Lemma select_no_models (d : daemon) (stdin : list string) (s : store) :
  res (list_installed_models d s) = Ret [] ->
  select_and_run_model d stdin s
  = {| res := Ret stdin; final := tick s;
       trace := trace (list_installed_models d s)
                ++ [Say NoModelsAvailable] |}.
Proof.
  intros H. destruct (list_installed_total d s) as [_ [Hf _]].
  unfold select_and_run_model, bind. rewrite H, Hf. reflexivity.
Qed.

(** A name is typed and matched: [MODEL_NAME] is set and [run_llama]
    takes over with the rest of standard input. *)
Lemma select_matched (d : daemon) (line : string) (rest : list string)
    (s : store) (names : list string) :
  res (list_installed_models d s) = Ret names ->
  names <> [] ->
  strip line <> "" ->
  matched_model (strip line) names <> "" ->
  select_and_run_model d (line :: rest) s
  = let m := matched_model (strip line) names in
    let r := run_llama d rest (with_model m (tick s)) in
    {| res := res r; final := final r;
       trace := trace (list_installed_models d s)
                ++ [Ask PromptChooseModel; Say (Selected m)] ++ trace r |}.
Proof.
  intros H Hne Hq Hm. destruct (list_installed_total d s) as [_ [Hf _]].
  apply is_blank_false in Hq. apply is_blank_false in Hm.
  unfold select_and_run_model. unfold bind at 1. rewrite H, Hf.
  destruct names as [|n names]; [congruence|].
  unfold input, bind, emit, ret, write_MODEL_NAME, read_MODEL_NAME, say, emit.
  cbn [res final trace app]. rewrite Hq, Hm.
  cbn [negb res final trace app MODEL_NAME clock]. reflexivity.
Qed.

(** A name is typed and not matched: the notice of line 229, nothing
    else. *)
Lemma select_unmatched (d : daemon) (line : string) (rest : list string)
    (s : store) (names : list string) :
  res (list_installed_models d s) = Ret names ->
  names <> [] ->
  strip line <> "" ->
  matched_model (strip line) names = "" ->
  select_and_run_model d (line :: rest) s
  = {| res := Ret rest; final := tick s;
       trace := trace (list_installed_models d s)
                ++ [Ask PromptChooseModel; Say (NotInstalled (strip line))] |}.
Proof.
  intros H Hne Hq Hm. destruct (list_installed_total d s) as [_ [Hf _]].
  apply is_blank_false in Hq.
  unfold select_and_run_model. unfold bind at 1. rewrite H, Hf.
  destruct names as [|n names]; [congruence|].
  unfold input, bind, emit, ret, write_MODEL_NAME, read_MODEL_NAME, say, emit.
  cbn [res final trace app]. rewrite Hq, Hm.
  cbn [negb is_blank res final trace app]. reflexivity.
Qed.

(** C9, as the code has it. With [names] the list [list_installed_models]
    returns and [q] the stripped line typed:
    - when [names] is empty, the function reports that no models are
      available and returns, no line read, [MODEL_NAME] untouched, the
      listing its only daemon call;
    - when [q] is not in [names] and [q + ":latest"] is, [MODEL_NAME] is
      set to [q + ":latest"] and the chat session [run_llama] runs with it
      on the rest of standard input;
    - when neither is in the non-empty [names], the function reports it and
      returns, [MODEL_NAME] untouched, the listing its only daemon call. *)
Theorem select_and_run_model_flow
    (d : daemon) (s : store) (line : string) (rest : list string)
    (names : list string) :
  res (list_installed_models d s) = Ret names ->
  let q := strip line in
  let listed := trace (list_installed_models d s) in
  (names = [] ->
   forall stdin,
     select_and_run_model d stdin s
     = {| res := Ret stdin; final := tick s;
          trace := listed ++ [Say NoModelsAvailable] |}
     /\ calls (listed ++ [Say NoModelsAvailable]) = [ollama_list])
  /\ (q <> "" -> ~ In q names -> In (q ++ ":latest")%string names ->
      let session :=
        run_llama d rest (with_model (q ++ ":latest")%string (tick s)) in
      select_and_run_model d (line :: rest) s
      = {| res := res session; final := final session;
           trace := listed
                    ++ [Ask PromptChooseModel;
                        Say (Selected (q ++ ":latest")%string)]
                    ++ trace session |}
      /\ MODEL_NAME (final session) = (q ++ ":latest")%string)
  /\ (q <> "" -> names <> [] ->
      ~ In q names -> ~ In (q ++ ":latest")%string names ->
      select_and_run_model d (line :: rest) s
      = {| res := Ret rest; final := tick s;
           trace := listed
                    ++ [Ask PromptChooseModel; Say (NotInstalled q)] |}
      /\ calls (listed ++ [Ask PromptChooseModel; Say (NotInstalled q)])
         = [ollama_list]).
Proof.
  intros H q listed. subst q listed.
  destruct (list_installed_total d s) as [_ [_ Hc]].
  split; [|split].
  - intros -> stdin. split; [now apply select_no_models|].
    rewrite calls_app, Hc. reflexivity.
  - intros Hq Hn Hl.
    pose proof (matched_model_latest _ _ Hn Hl) as Hm.
    assert (Hne : names <> []) by (intros ->; destruct Hl).
    split.
    + rewrite (select_matched d line rest s names H Hne Hq);
        rewrite Hm; [reflexivity|].
      intros E. apply (f_equal String.length) in E.
      rewrite length_append in E. simpl in E. lia.
    + now rewrite keeps_run_llama.
  - intros Hq Hne Hn Hl.
    pose proof (matched_model_none _ _ Hn Hl) as Hm.
    split; [now apply (select_unmatched d line rest s names)|].
    rewrite calls_app, Hc. reflexivity.
Qed.

Lemma select_and_run_model_flow_witness :
  res (list_installed_models Scenario.d_llama3 Scenario.fresh)
  = Ret ["llama3:latest"]
  /\ strip "llama3" <> ""
  /\ ~ In (strip "llama3") ["llama3:latest"]
  /\ In (strip "llama3" ++ ":latest")%string ["llama3:latest"]
  /\ MODEL_NAME (final (run_llama Scenario.d_llama3 ["hi"; "q"]
                          (with_model (strip "llama3" ++ ":latest")%string
                                      (tick Scenario.fresh))))
     = "llama3:latest".
Proof.
  assert (Hq : strip "llama3" <> "") by (vm_compute; discriminate).
  assert (Hn : ~ In (strip "llama3") ["llama3:latest"])
    by (vm_compute; intuition discriminate).
  assert (Hl : In (strip "llama3" ++ ":latest")%string ["llama3:latest"])
    by (vm_compute; auto).
  split; [reflexivity|]. split; [exact Hq|]. split; [exact Hn|].
  split; [exact Hl|].
  exact (proj2 (proj1 (proj2 (select_and_run_model_flow
                                Scenario.d_llama3 Scenario.fresh "llama3"
                                ["hi"; "q"] ["llama3:latest"] eq_refl))
                      Hq Hn Hl)).
Defined.

(** C9 as stated fails: the list contains [llama3:latest], the user types
    [llama3], and the session runs with [MODEL_NAME = "llama3"], because
    the list contains [llama3] as well. *)
Lemma latest_listed_but_untagged_selected :
  res (list_installed_models Scenario.d_both Scenario.fresh)
  = Ret ["llama3"; "llama3:latest"]
  /\ In "llama3:latest" ["llama3"; "llama3:latest"]
  /\ MODEL_NAME (final (select_and_run_model Scenario.d_both
                          ["llama3"; "hi"; "q"] Scenario.fresh))
     = "llama3"
  /\ In (Say (ChatStarted "llama3"))
        (trace (select_and_run_model Scenario.d_both
                  ["llama3"; "hi"; "q"] Scenario.fresh))
  /\ MODEL_NAME (final (select_and_run_model Scenario.d_both
                          ["llama3"; "hi"; "q"] Scenario.fresh))
     <> "llama3:latest".
Proof.
  split; [reflexivity|]. split; [simpl; auto|]. split; [reflexivity|].
  split; [vm_compute; auto 20|]. vm_compute. discriminate.
Qed.

(** C10. When the installed list contains both the name typed, [q], and
    [q + ":latest"], the selection takes [q]: the match of lines 217-221
    is [q], [MODEL_NAME] is set to [q] and not to [q + ":latest"], and the
    chat session runs with it. *)
Theorem exact_name_takes_precedence
    (d : daemon) (s : store) (line : string) (rest : list string)
    (names : list string) :
  res (list_installed_models d s) = Ret names ->
  let q := strip line in
  q <> "" ->
  In q names ->
  In (q ++ ":latest")%string names ->
  let r := select_and_run_model d (line :: rest) s in
  let session := run_llama d rest (with_model q (tick s)) in
  matched_model q names = q
  /\ MODEL_NAME (final r) = q
  /\ MODEL_NAME (final r) <> (q ++ ":latest")%string
  /\ trace r = trace (list_installed_models d s)
               ++ [Ask PromptChooseModel; Say (Selected q)]
               ++ trace session.
Proof.
  intros H q Hq Hin Hl r session. subst q r session.
  pose proof (matched_model_exact _ _ Hin) as Hm.
  assert (Hne : names <> []) by (intros ->; destruct Hin).
  rewrite (select_matched d line rest s names H Hne Hq); rewrite Hm;
    [|assumption].
  cbn [res final trace]. rewrite keeps_run_llama. cbn [MODEL_NAME with_model].
  repeat split. intros E. symmetry in E. now apply append_latest_neq in E.
Qed.

Lemma exact_name_takes_precedence_witness :
  res (list_installed_models Scenario.d_both Scenario.fresh)
  = Ret ["llama3"; "llama3:latest"]
  /\ strip " llama3 " <> ""
  /\ In (strip " llama3 ") ["llama3"; "llama3:latest"]
  /\ In (strip " llama3 " ++ ":latest")%string ["llama3"; "llama3:latest"]
  /\ MODEL_NAME (final (select_and_run_model Scenario.d_both
                          [" llama3 "; "hi"; "q"] Scenario.fresh))
     = strip " llama3 ".
Proof.
  assert (Hq : strip " llama3 " <> "") by (vm_compute; discriminate).
  assert (Hi : In (strip " llama3 ") ["llama3"; "llama3:latest"])
    by (vm_compute; auto).
  assert (Hl : In (strip " llama3 " ++ ":latest")%string
                  ["llama3"; "llama3:latest"])
    by (vm_compute; auto).
  split; [reflexivity|]. split; [exact Hq|]. split; [exact Hi|].
  split; [exact Hl|].
  exact (proj1 (proj2 (exact_name_takes_precedence
                         Scenario.d_both Scenario.fresh " llama3 "
                         ["hi"; "q"] ["llama3"; "llama3:latest"]
                         eq_refl Hq Hi Hl))).
Defined.

(** * Further properties of the modelled functions *)

(** ** [ensure_model_exists] *)

(** X1. [ensure_model_exists] never raises, and it returns [False] exactly
    when the daemon raised: at the listing, or, the model being absent, at
    the pull call or in the pull stream. *)
Theorem ensure_model_exists_false_iff_daemon_fails
    (d : daemon) (s : store) (q : string) :
  (exists b, res (ensure_model_exists d q s) = Ret b)
  /\ (res (ensure_model_exists d q s) = Ret false
      <-> daemon_fails d (clock s) q).
Proof.
  split; [apply ensure_total|]. unfold daemon_fails.
  destruct (on_list d (clock s)) as [e|L] eqn:HL.
  - rewrite (ensure_unreachable_run d s q e HL). simpl. tauto.
  - destruct (absent q (model_names L)) eqn:Hab.
    + destruct (on_pull d (S (clock s)) q) as [e|st] eqn:HP.
      * rewrite (ensure_refused_run d s q L e HL Hab HP). simpl. tauto.
      * rewrite (ensure_absent_run d s q L st HL Hab HP). simpl.
        destruct (failure st) as [e|].
        -- split; [intros _; split; [reflexivity | discriminate]
                  | reflexivity].
        -- split; [discriminate | intros [_ H]; congruence].
    + rewrite (ensure_present_run d s q L HL Hab). simpl.
      split; [discriminate | intros [H _]; discriminate].
Qed.

Lemma statuses_app (t u : list event) :
  statuses (t ++ u) = statuses t ++ statuses u.
Proof.
  induction t as [|e t IH]; simpl; [reflexivity|].
  destruct e as [c|p|n|x]; simpl; try assumption.
  destruct n; simpl; try assumption. now rewrite IH.
Qed.

Lemma statuses_pull_statuses (ps : list progress) :
  statuses (map (fun p => Say (PullStatus (get (status p) ""))) ps)
  = map (fun p => get (status p) "") ps.
Proof. induction ps as [|p ps IH]; simpl; [reflexivity | now rewrite IH]. Qed.

(** X2. When the model is absent and the pull call returns a stream, the
    statuses shown are those of the stream, one per progress item and in
    the order of the stream, an item without [status] shown as the empty
    string; this holds whether the stream then ends cleanly or raises, and
    the result is [True] exactly in the first case. *)
Theorem ensure_model_exists_shows_every_status
    (d : daemon) (s : store) (q : string) (L : list_response)
    (st : stream progress) :
  on_list d (clock s) = Returns L ->
  ~ In q (model_names L) ->
  ~ In (q ++ ":latest")%string (model_names L) ->
  on_pull d (S (clock s)) q = Returns st ->
  statuses (trace (ensure_model_exists d q s))
  = map (fun p => get (status p) "") (items st)
  /\ (res (ensure_model_exists d q s) = Ret true <-> failure st = None).
Proof.
  intros HL Hq Hl HP.
  assert (Hab : absent q (model_names L) = true) by now apply absent_iff.
  rewrite (ensure_absent_run d s q L st HL Hab HP). cbn [res trace].
  split.
  - rewrite statuses_app. cbn [statuses app].
    rewrite statuses_app, statuses_pull_statuses.
    destruct (failure st); simpl; now rewrite app_nil_r.
  - destruct (failure st); split; congruence.
Qed.

Lemma ensure_model_exists_shows_every_status_witness :
  on_list Scenario.d_llama3 (clock Scenario.fresh)
  = Returns {| resp_models := Some [Scenario.llama3_latest] |}
  /\ ~ In "mistral" ["llama3:latest"]
  /\ ~ In ("mistral" ++ ":latest")%string ["llama3:latest"]
  /\ on_pull Scenario.d_llama3 (S (clock Scenario.fresh)) "mistral"
     = Returns Scenario.pull_statuses
  /\ statuses (trace (ensure_model_exists Scenario.d_llama3 "mistral"
                                          Scenario.fresh))
     = ["pulling manifest"; "downloading 10%"; "downloading 100%";
        "verifying"].
Proof.
  assert (Hq : ~ In "mistral" ["llama3:latest"])
    by (simpl; intuition discriminate).
  assert (Hl : ~ In ("mistral" ++ ":latest")%string ["llama3:latest"])
    by (simpl; intuition discriminate).
  split; [reflexivity|]. split; [exact Hq|]. split; [exact Hl|].
  split; [reflexivity|].
  exact (proj1 (ensure_model_exists_shows_every_status
                  Scenario.d_llama3 Scenario.fresh "mistral"
                  {| resp_models := Some [Scenario.llama3_latest] |}
                  Scenario.pull_statuses eq_refl Hq Hl eq_refl)).
Defined.

(** ** [run_llama] *)

(** X3. When [ensure_model_exists] returns [False], [run_llama] returns at
    line 235: it shows nothing more, reads no line and sends no chat
    request. *)
Theorem run_llama_stops_when_model_not_ready
    (d : daemon) (stdin : list string) (s : store) :
  res (ensure_model_exists d (MODEL_NAME s) s) = Ret false ->
  res (run_llama d stdin s) = Ret stdin
  /\ trace (run_llama d stdin s)
     = trace (ensure_model_exists d (MODEL_NAME s) s)
  /\ forall model msgs,
       ~ In (ollama_chat model msgs) (calls (trace (run_llama d stdin s))).
Proof.
  intros H. rewrite run_llama_run. cbv zeta. rewrite H. cbn [res trace].
  repeat split. intros model msgs. apply ensure_no_chat.
Qed.

Lemma run_llama_stops_when_model_not_ready_witness :
  res (ensure_model_exists Scenario.d_down (MODEL_NAME Scenario.chatting)
                           Scenario.chatting) = Ret false
  /\ res (run_llama Scenario.d_down ["hi"; "q"] Scenario.chatting)
     = Ret ["hi"; "q"].
Proof.
  split; [reflexivity|].
  exact (proj1 (run_llama_stops_when_model_not_ready
                  Scenario.d_down ["hi"; "q"] Scenario.chatting eq_refl)).
Defined.

(** ** The prompt of the chat loop *)

Lemma lower_lstrip (s : string) : lower (lstrip s) = lstrip (lower s).
Proof.
  induction s as [|c s IH]; [reflexivity|].
  change (lower (String c s)) with (String (lower_char c) (lower s)).
  cbn [lstrip]. rewrite isspace_lower_char.
  destruct (isspace c); [assumption | reflexivity].
Qed.

Lemma lower_rstrip (s : string) : lower (rstrip s) = rstrip (lower s).
Proof.
  induction s as [|c s IH]; [reflexivity|].
  change (lower (String c s)) with (String (lower_char c) (lower s)).
  cbn [rstrip]. rewrite <- IH, isspace_lower_char.
  destruct (rstrip s) as [|c' r]; [destruct (isspace c)|]; reflexivity.
Qed.

(** [s.strip().lower()] and [s.lower().strip()] are the same string. *)
Lemma lower_strip (s : string) : lower (strip s) = strip (lower s).
Proof. unfold strip. now rewrite lower_rstrip, lower_lstrip. Qed.

(** X4. At the prompt of line 241 a line ends the chat without any daemon
    operation exactly when, stripped and lower-cased, it is one of [exit],
    [quit], [q]; every other line, the blank one included, sends one chat
    request.  The sub-menu normalises in the other order,
    [lower().strip()], which gives the same string. *)
Theorem prompt_exits_iff_keyword (d : daemon) (s : store) (line : string) :
  (calls (trace (step d AwaitingPrompt line s)) = []
   <-> In (lower (strip line)) exit_keywords)
  /\ (~ In (lower (strip line)) exit_keywords ->
      calls (trace (step d AwaitingPrompt line s))
      = [ollama_chat (MODEL_NAME s) [user_message (strip line)]])
  /\ lower (strip line) = strip (lower line).
Proof.
  cbn [step]. rewrite prompt_step_calls.
  split; [|split; [|apply lower_strip]].
  - rewrite <- str_in_In.
    destruct (str_in (lower (strip line)) exit_keywords);
      split; congruence.
  - intros H. apply str_in_not_In in H. now rewrite H.
Qed.

Lemma prompt_exits_iff_keyword_witness :
  ~ In (lower (strip " thanks, bye ")) exit_keywords
  /\ calls (trace (step Scenario.d_llama3 AwaitingPrompt " thanks, bye "
                        Scenario.chatting))
     = [ollama_chat "llama3:latest" [user_message "thanks, bye"]].
Proof.
  assert (H : ~ In (lower (strip " thanks, bye ")) exit_keywords)
    by (vm_compute; intuition discriminate).
  split; [exact H|].
  exact (proj1 (proj2 (prompt_exits_iff_keyword
                         Scenario.d_llama3 Scenario.chatting
                         " thanks, bye ")) H).
Defined.

(** X5. A prompt leads to the sub-menu exactly when it is not an exit
    keyword and its chat request yields a stream that ends without an
    exception; in every other case (exit keyword, chat call raising, stream
    raising) the chat loop is over.  The step itself never raises. *)
Theorem prompt_reaches_submenu_iff_chat_succeeds
    (d : daemon) (s : store) (line : string) :
  (res (step d AwaitingPrompt line s) = Ret SubMenu
   <-> ~ In (lower (strip line)) exit_keywords
       /\ chat_succeeds d s (strip line))
  /\ (res (step d AwaitingPrompt line s) = Ret SubMenu
      \/ res (step d AwaitingPrompt line s) = Ret Terminated).
Proof.
  split; [|apply prompt_step_res]. cbn [step]. unfold chat_succeeds.
  destruct (str_in (lower (strip line)) exit_keywords) eqn:Hk.
  - rewrite (prompt_step_exit d s line Hk). cbn [res].
    apply str_in_In in Hk. split; [discriminate | tauto].
  - pose proof Hk as Hn. apply str_in_not_In in Hn.
    destruct (on_chat d (clock s) (MODEL_NAME s)
                      [user_message (strip line)]) as [e|st] eqn:HC.
    + rewrite (prompt_step_refused d s line e Hk HC). cbn [res].
      split; [discriminate | intros [_ [st [H _]]]; discriminate].
    + rewrite (prompt_step_chat d s line st Hk HC). cbn [res].
      destruct (failure st) as [e|] eqn:Hf.
      * split; [discriminate|]. intros [_ [st' [H H']]].
        inversion H; subst. congruence.
      * split; [|reflexivity]. intros _. split; [assumption|].
        now exists st.
Qed.

(** ** What leaves the chat loop *)

Lemma step_returns (d : daemon) (c : control) (line : string) (s : store) :
  exists c', res (step d c line s) = Ret c'.
Proof.
  destruct c; cbn [step].
  - destruct (prompt_step_res d s line) as [H|H]; rewrite H; eauto.
  - rewrite submenu_step_run. cbn [res]. eauto.
  - simpl. eauto.
Qed.

Lemma chat_loop_raises_only_eof (d : daemon) (stdin : list string) :
  forall (c : control) (s : store) (e : exn),
  res (chat_loop d c stdin s) = Raise e ->
  e = EOFError
  /\ exists shown, trace (chat_loop d c stdin s) = shown ++ [Ask PromptYou].
Proof.
  induction stdin as [|line rest IH]; intros c s e.
  - destruct c; simpl; intros H; inversion H.
    split; [reflexivity|]. now exists [].
  - destruct (control_eq_dec c Terminated) as [->|Hc].
    + rewrite chat_loop_terminated. discriminate.
    + rewrite (chat_loop_cons d c line rest Hc), res_bind, trace_bind.
      destruct (step_returns d c line s) as [c' Hs]. rewrite Hs.
      intros H. apply IH in H. destruct H as [He [shown Ht]].
      split; [assumption|]. exists (trace (step d c line s) ++ shown).
      now rewrite Ht, app_assoc.
Qed.

(** What the chat loop returns is what it has not read: a suffix of standard
    input; and each daemon call of the loop has cost a line. *)
Lemma chat_loop_reads_prefix (d : daemon) (stdin : list string) :
  forall (c : control) (s : store),
  exists used,
    length (calls (trace (chat_loop d c stdin s))) <= length used
    /\ match res (chat_loop d c stdin s) with
       | Ret rest => stdin = used ++ rest
       | Raise _ => stdin = used
       end.
Proof.
  induction stdin as [|line rest IH]; intros c s.
  - exists []. destruct c; simpl; auto.
  - destruct (control_eq_dec c Terminated) as [->|Hc].
    + exists []. rewrite chat_loop_terminated. simpl. auto.
    + rewrite (chat_loop_cons d c line rest Hc), res_bind, trace_bind.
      destruct (step_returns d c line s) as [c' Hs]. rewrite Hs.
      destruct (IH c' (final (step d c line s))) as [used [Hn Hr]].
      exists (line :: used). split.
      * rewrite calls_app, length_app. cbn [length].
        assert (Hone : length (calls (trace (step d c line s))) <= 1).
        { destruct c; cbn [step].
          - rewrite prompt_step_calls.
            destruct (str_in (lower (strip line)) exit_keywords);
              simpl; lia.
          - rewrite submenu_step_run. cbn [trace calls].
            destruct (String.eqb (strip (lower line)) "c");
              [simpl; lia|].
            destruct (String.eqb (strip (lower line)) "q"); simpl; lia.
          - congruence. }
        lia.
      * destruct (res (chat_loop d c' rest (final (step d c line s))));
          simpl; now rewrite Hr.
Qed.

(** X6. No exception of the daemon leaves [run_llama]: whatever the daemon
    answers, [run_llama] either returns or raises the [EOFError] of the
    [input] of line 241, the last thing shown being the [You:] prompt.  End
    of input in the sub-menu does not raise. *)
Theorem run_llama_raises_only_eof
    (d : daemon) (stdin : list string) (s : store) (e : exn) :
  res (run_llama d stdin s) = Raise e ->
  e = EOFError
  /\ exists shown, trace (run_llama d stdin s) = shown ++ [Ask PromptYou].
Proof.
  rewrite run_llama_run. cbv zeta.
  destruct (ensure_total d s (MODEL_NAME s)) as [b Hb]. rewrite Hb.
  destruct b; cbn [res trace]; [|discriminate].
  intros H. apply chat_loop_raises_only_eof in H.
  destruct H as [He [shown Ht]]. split; [assumption|].
  eexists. rewrite Ht, !app_assoc. reflexivity.
Qed.

Lemma run_llama_raises_only_eof_witness :
  res (run_llama Scenario.d_llama3 ["hi"; "c"] Scenario.chatting)
  = Raise EOFError
  /\ EOFError = EOFError.
Proof.
  split; [reflexivity|].
  exact (proj1 (run_llama_raises_only_eof
                  Scenario.d_llama3 ["hi"; "c"] Scenario.chatting EOFError
                  eq_refl)).
Defined.

(** X7. [run_llama] reads standard input from the front and returns what
    it has not read; it makes at most one chat request per line read, and
    its other daemon calls are the listing and at most one pull. *)
Theorem run_llama_reads_prefix
    (d : daemon) (stdin : list string) (s : store) :
  exists used,
    length (calls (trace (run_llama d stdin s))) <= 2 + length used
    /\ match res (run_llama d stdin s) with
       | Ret rest => stdin = used ++ rest
       | Raise _ => stdin = used
       end.
Proof.
  rewrite run_llama_run. cbv zeta.
  assert (He : length (calls (trace (ensure_model_exists d (MODEL_NAME s) s)))
               <= 2).
  { destruct (on_list d (clock s)) as [e|L] eqn:HL.
    - rewrite (ensure_unreachable_run d s _ e HL). simpl. lia.
    - rewrite (ensure_calls d s _ L HL).
      destruct (absent (MODEL_NAME s) (model_names L)); simpl; lia. }
  destruct (ensure_total d s (MODEL_NAME s)) as [b Hb]. rewrite Hb.
  destruct b; cbn [res trace].
  - destruct (chat_loop_reads_prefix d stdin AwaitingPrompt
                (final (ensure_model_exists d (MODEL_NAME s) s)))
      as [used [Hn Hr]].
    exists used. split; [|exact Hr].
    rewrite !calls_app, !length_app. cbn [calls length app]. lia.
  - exists []. split; [cbn [length]; lia | reflexivity].
Qed.

(** ** The table of installed models *)




(** ** Edge cases of the model selection *)

Lemma select_blank (d : daemon) (line : string) (rest : list string)
    (s : store) (names : list string) :
  res (list_installed_models d s) = Ret names ->
  names <> [] ->
  strip line = "" ->
  select_and_run_model d (line :: rest) s
  = {| res := Ret rest; final := tick s;
       trace := trace (list_installed_models d s)
                ++ [Ask PromptChooseModel] |}.
Proof.
  intros H Hne Hq. destruct (list_installed_total d s) as [_ [Hf _]].
  unfold select_and_run_model. unfold bind at 1. rewrite H, Hf.
  destruct names as [|n names]; [congruence|].
  unfold input, bind, emit, ret. cbn [res final trace app]. rewrite Hq.
  reflexivity.
Qed.

Lemma select_eof (d : daemon) (s : store) (names : list string) :
  res (list_installed_models d s) = Ret names ->
  names <> [] ->
  select_and_run_model d [] s
  = {| res := Raise EOFError; final := tick s;
       trace := trace (list_installed_models d s)
                ++ [Ask PromptChooseModel] |}.
Proof.
  intros H Hne. destruct (list_installed_total d s) as [_ [Hf _]].
  unfold select_and_run_model. unfold bind at 1. rewrite H, Hf.
  destruct names as [|n names]; [congruence|]. reflexivity.
Qed.

(** X9. With models listed, a line that is blank after stripping makes
    [select_and_run_model] return at line 213 without a word: nothing is
    printed after the prompt, [MODEL_NAME] keeps its value, no daemon call
    follows the listing, and the lines after it stay unread.  With standard
    input at its end the [input] of line 210 raises [EOFError]. *)
Theorem select_and_run_model_blank_or_eof
    (d : daemon) (s : store) (names : list string) :
  res (list_installed_models d s) = Ret names ->
  names <> [] ->
  (forall line rest,
     strip line = "" ->
     let r := select_and_run_model d (line :: rest) s in
     res r = Ret rest
     /\ trace r = trace (list_installed_models d s) ++ [Ask PromptChooseModel]
     /\ MODEL_NAME (final r) = MODEL_NAME s
     /\ calls (trace r) = [ollama_list])
  /\ res (select_and_run_model d [] s) = Raise EOFError.
Proof.
  intros H Hne. destruct (list_installed_total d s) as [_ [_ Hc]]. split.
  - intros line rest Hq r. subst r.
    rewrite (select_blank d line rest s names H Hne Hq). cbn [res final trace].
    repeat split. now rewrite calls_app, Hc.
  - now rewrite (select_eof d s names H Hne).
Qed.

Lemma select_and_run_model_blank_or_eof_witness :
  res (list_installed_models Scenario.d_llama3 Scenario.fresh)
  = Ret ["llama3:latest"]
  /\ ["llama3:latest"] <> []
  /\ strip "   " = ""
  /\ res (select_and_run_model Scenario.d_llama3 ["   "; "hi"]
                               Scenario.fresh) = Ret ["hi"].
Proof.
  assert (Hne : ["llama3:latest"] <> []) by discriminate.
  split; [reflexivity|]. split; [exact Hne|]. split; [reflexivity|].
  exact (proj1 (proj1 (select_and_run_model_blank_or_eof
                         Scenario.d_llama3 Scenario.fresh
                         ["llama3:latest"] eq_refl Hne)
                      "   " ["hi"] eq_refl)).
Defined.

(** The selection in one of its five ways. *)
Lemma select_cases (d : daemon) (stdin : list string) (s : store)
    (names : list string) :
  res (list_installed_models d s) = Ret names ->
  let r := select_and_run_model d stdin s in
  let listed := trace (list_installed_models d s) in
  (res r = Ret stdin /\ final r = tick s
   /\ trace r = listed ++ [Say NoModelsAvailable] /\ names = [])
  \/ (res r = Raise EOFError /\ final r = tick s
      /\ trace r = listed ++ [Ask PromptChooseModel] /\ stdin = [])
  \/ (exists line rest, stdin = line :: rest /\ res r = Ret rest
      /\ final r = tick s
      /\ (trace r = listed ++ [Ask PromptChooseModel]
          \/ trace r = listed ++ [Ask PromptChooseModel;
                                  Say (NotInstalled (strip line))]))
  \/ (exists line rest m,
        stdin = line :: rest /\ In m names /\ strip line <> ""
        /\ (m = strip line
            \/ m = (strip line ++ ":latest")%string /\ ~ In (strip line) names)
        /\ let session := run_llama d rest (with_model m (tick s)) in
           res r = res session /\ final r = final session
           /\ trace r = listed ++ [Ask PromptChooseModel; Say (Selected m)]
                        ++ trace session).
Proof.
  intros H r listed. subst r listed.
  destruct names as [|n names].
  { left. rewrite (select_no_models d stdin s H). auto. }
  assert (Hne : n :: names <> []) by discriminate.
  destruct stdin as [|line rest].
  { right. left. rewrite (select_eof d s _ H Hne). auto. }
  right. right.
  destruct (string_dec (strip line) "") as [Hb|Hb].
  { left. exists line, rest.
    rewrite (select_blank d line rest s _ H Hne Hb). auto. }
  destruct (in_dec string_dec (strip line) (n :: names)) as [Hi|Hi].
  { right. exists line, rest, (strip line).
    pose proof (matched_model_exact _ _ Hi) as Hm.
    rewrite (select_matched d line rest s _ H Hne Hb); rewrite Hm;
      [|assumption].
    cbv zeta. cbn [res final trace]. auto 10. }
  destruct (in_dec string_dec (strip line ++ ":latest")%string (n :: names))
    as [Hl|Hl].
  { right. exists line, rest, (strip line ++ ":latest")%string.
    pose proof (matched_model_latest _ _ Hi Hl) as Hm.
    rewrite (select_matched d line rest s _ H Hne Hb); rewrite Hm;
      [|apply not_eq_sym; intros E; symmetry in E;
        apply (f_equal String.length) in E;
        rewrite length_append in E; simpl in E; lia].
    cbv zeta. cbn [res final trace]. auto 10. }
  left. exists line, rest.
  pose proof (matched_model_none _ _ Hi Hl) as Hm.
  rewrite (select_unmatched d line rest s _ H Hne Hb Hm). auto 10.
Qed.

(** X10. [select_and_run_model] assigns the global [MODEL_NAME] only a name
    of the list [list_installed_models] has just returned: afterwards
    [MODEL_NAME] is what it was, or it is one of these names, not empty, and
    the selection has been announced. *)
Theorem select_sets_MODEL_NAME_to_listed_name
    (d : daemon) (stdin : list string) (s : store) (names : list string) :
  res (list_installed_models d s) = Ret names ->
  let after := MODEL_NAME (final (select_and_run_model d stdin s)) in
  after = MODEL_NAME s
  \/ (In after names
      /\ after <> ""
      /\ In (Say (Selected after)) (trace (select_and_run_model d stdin s))).
Proof.
  intros H after. subst after.
  destruct (select_cases d stdin s names H)
    as [[_ [Hf _]]|[[_ [Hf _]]|[[line [rest [_ [_ [Hf _]]]]]
       |[line [rest [m [_ [Hin [Hb [Hm [_ [Hf Ht]]]]]]]]]]]].
  - left. now rewrite Hf.
  - left. now rewrite Hf.
  - left. now rewrite Hf.
  - right. rewrite Hf, keeps_run_llama. cbn [with_model MODEL_NAME].
    split; [assumption|]. split.
    + destruct Hm as [Hm|[Hm _]]; subst m; [assumption|].
      intros E. apply (f_equal String.length) in E.
      rewrite length_append in E. simpl in E. lia.
    + rewrite Ht. apply in_or_app. right. simpl. auto.
Qed.

Lemma select_sets_MODEL_NAME_to_listed_name_witness :
  res (list_installed_models Scenario.d_llama3 Scenario.fresh)
  = Ret ["llama3:latest"]
  /\ (MODEL_NAME (final (select_and_run_model Scenario.d_llama3
                           ["llama3"; "q"] Scenario.fresh))
      = MODEL_NAME Scenario.fresh
      \/ In (MODEL_NAME (final (select_and_run_model Scenario.d_llama3
                                  ["llama3"; "q"] Scenario.fresh)))
            ["llama3:latest"]).
Proof.
  split; [reflexivity|].
  destruct (select_sets_MODEL_NAME_to_listed_name
              Scenario.d_llama3 ["llama3"; "q"] Scenario.fresh
              ["llama3:latest"] eq_refl) as [H|[H _]];
    [left | right]; exact H.
Defined.

(** X11. No exception of the daemon leaves [select_and_run_model] either:
    it returns or raises [EOFError], at the [input] of line 210 or at that
    of line 241. *)
Theorem select_and_run_model_raises_only_eof
    (d : daemon) (stdin : list string) (s : store) (e : exn) :
  res (select_and_run_model d stdin s) = Raise e ->
  e = EOFError
  /\ exists shown p,
       trace (select_and_run_model d stdin s) = shown ++ [Ask p]
       /\ (p = PromptChooseModel \/ p = PromptYou).
Proof.
  destruct (list_installed_total d s) as [[names H] _].
  destruct (select_cases d stdin s names H)
    as [[Hr _]|[[Hr [_ [Ht _]]]|[[line [rest [_ [Hr _]]]]
       |[line [rest [m [_ [_ [_ [_ [Hr [_ Ht]]]]]]]]]]]];
    rewrite Hr; try discriminate.
  - intros E. inversion E. split; [reflexivity|].
    exists (trace (list_installed_models d s)), PromptChooseModel. auto.
  - intros E. apply run_llama_raises_only_eof in E.
    destruct E as [He [shown Hs]]. split; [assumption|].
    eexists. exists PromptYou. rewrite Ht, Hs, !app_assoc. auto.
Qed.

Lemma select_and_run_model_raises_only_eof_witness :
  res (select_and_run_model Scenario.d_llama3 ["llama3"; "hi"; "c"]
                            Scenario.fresh) = Raise EOFError
  /\ EOFError = EOFError.
Proof.
  split; [reflexivity|].
  exact (proj1 (select_and_run_model_raises_only_eof
                  Scenario.d_llama3 ["llama3"; "hi"; "c"] Scenario.fresh
                  EOFError eq_refl)).
Defined.

(** X12. With the daemon unreachable, [select_and_run_model] shows the
    listing error of line 150 and then reports, as for an empty
    installation, that no models are available; it reads no line, leaves
    [MODEL_NAME] alone and makes no further daemon call. *)
Theorem select_and_run_model_daemon_unreachable
    (d : daemon) (stdin : list string) (s : store) (e : exn) :
  on_list d (clock s) = CallRaises e ->
  select_and_run_model d stdin s
  = {| res := Ret stdin; final := tick s;
       trace := [Say InstalledHeader; Call ollama_list; Say (ListError e);
                 Say NoModelsAvailable] |}.
Proof.
  intros HL.
  assert (H : res (list_installed_models d s) = Ret [])
    by now rewrite (list_installed_unreachable d s e HL).
  rewrite (select_no_models d stdin s H).
  now rewrite (list_installed_unreachable d s e HL).
Qed.

Lemma select_and_run_model_daemon_unreachable_witness :
  on_list Scenario.d_down (clock Scenario.fresh)
  = CallRaises Scenario.unreachable
  /\ res (select_and_run_model Scenario.d_down ["llama3"] Scenario.fresh)
     = Ret ["llama3"].
Proof.
  split; [reflexivity|].
  exact (f_equal res
           (select_and_run_model_daemon_unreachable
              Scenario.d_down ["llama3"] Scenario.fresh
              Scenario.unreachable eq_refl)).
Defined.

(** ** Selection followed by the availability check *)

Lemma chat_loop_no_pull (d : daemon) (q : string) (stdin : list string) :
  forall (c : control) (s : store),
  ~ In (ollama_pull q) (calls (trace (chat_loop d c stdin s))).
Proof.
  induction stdin as [|line rest IH]; intros c s.
  - destruct c; simpl; intuition discriminate.
  - destruct (control_eq_dec c Terminated) as [->|Hc].
    + rewrite chat_loop_terminated. simpl. tauto.
    + rewrite (chat_loop_cons d c line rest Hc), trace_bind, calls_app.
      intros H. apply in_app_or in H. destruct H as [H|H].
      * destruct c; cbn [step] in H.
        -- rewrite prompt_step_calls in H.
           destruct (str_in (lower (strip line)) exit_keywords);
             simpl in H; intuition discriminate.
        -- rewrite submenu_step_run in H. cbn [trace calls] in H.
           destruct (String.eqb (strip (lower line)) "c");
             [destruct H|].
           destruct (String.eqb (strip (lower line)) "q"); destruct H.
        -- congruence.
      * destruct (res (step d c line s)); [now apply IH in H | destruct H].
Qed.

(** X13. When every entry of the listing reads the same under
    [list_installed_models] (line 141) and under [ensure_model_exists]
    (line 182), and the daemon answers the second listing as the first,
    choosing a model never downloads anything: [select_and_run_model] makes
    no pull call. *)
Theorem select_never_pulls_on_stable_listing
    (d : daemon) (stdin : list string) (s : store) (L : list_response)
    (q : string) :
  on_list d (clock s) = Returns L ->
  on_list d (S (clock s)) = Returns L ->
  (forall m, In m (get (resp_models L) []) -> consistent m) ->
  ~ In (ollama_pull q) (calls (trace (select_and_run_model d stdin s))).
Proof.
  intros H1 H2 Hcons.
  assert (Hnames : map listed_name (get (resp_models L) []) = model_names L).
  { unfold model_names. apply map_ext_in. exact Hcons. }
  assert (H : res (list_installed_models d s) = Ret (model_names L)).
  { rewrite (list_installed_reachable d s L H1). cbn [res]. now rewrite Hnames. }
  destruct (list_installed_total d s) as [_ [_ Hc]].
  destruct (select_cases d stdin s _ H)
    as [[_ [_ [Ht _]]]|[[_ [_ [Ht _]]]|[[line [rest [_ [_ [_ [Ht|Ht]]]]]]
       |[line [rest [m [_ [Hin [_ [Hm [_ [_ Ht]]]]]]]]]]]];
    rewrite Ht, calls_app, Hc; cbn [calls app];
    try (intros [E|[]]; discriminate).
  intros [E|E]; [discriminate|].
  rewrite run_llama_run in E. cbv zeta in E.
  cbn [with_model MODEL_NAME] in E.
  assert (Hp : ensure_model_exists d m (with_model m (tick s))
               = {| res := Ret true; final := tick (with_model m (tick s));
                    trace := [Say (Checking m); Call ollama_list;
                              Say (ReadyToGo m)] |}).
  { apply (ensure_present_run d _ m L); [exact H2|].
    unfold absent. apply str_in_In in Hin. destruct Hm as [->|[-> _]].
    - now rewrite Hin.
    - rewrite Hin. now rewrite andb_false_l. }
  rewrite Hp in E. cbn [res final trace] in E.
  rewrite !calls_app in E. cbn [calls app] in E.
  destruct E as [E|E]; [discriminate|].
  now apply chat_loop_no_pull in E.
Qed.

Lemma select_never_pulls_on_stable_listing_witness :
  on_list Scenario.d_llama3 (clock Scenario.fresh)
  = Returns {| resp_models := Some [Scenario.llama3_latest] |}
  /\ on_list Scenario.d_llama3 (S (clock Scenario.fresh))
     = Returns {| resp_models := Some [Scenario.llama3_latest] |}
  /\ (forall m, In m [Scenario.llama3_latest] -> consistent m)
  /\ ~ In (ollama_pull "llama3:latest")
          (calls (trace (select_and_run_model Scenario.d_llama3
                           ["llama3"; "hi"; "q"] Scenario.fresh))).
Proof.
  assert (Hc : forall m, In m [Scenario.llama3_latest] -> consistent m)
    by (intros m [<-|[]]; reflexivity).
  split; [reflexivity|]. split; [reflexivity|]. split; [exact Hc|].
  exact (select_never_pulls_on_stable_listing
           Scenario.d_llama3 ["llama3"; "hi"; "q"] Scenario.fresh
           {| resp_models := Some [Scenario.llama3_latest] |}
           "llama3:latest" eq_refl eq_refl Hc).
Defined.

(** X14. The check of [run_llama] is made on a fresh listing and on the
    names read as line 182 reads them: when the name just selected from the
    first listing is not found in the second, neither as it is nor with
    [:latest], [select_and_run_model] pulls it before any chat. *)
Theorem selected_model_missing_from_second_listing_is_pulled
    (d : daemon) (s : store) (line : string) (rest : list string)
    (names : list string) (L' : list_response) :
  res (list_installed_models d s) = Ret names ->
  let q := strip line in
  q <> "" ->
  In q names ->
  on_list d (S (clock s)) = Returns L' ->
  ~ In q (model_names L') ->
  ~ In (q ++ ":latest")%string (model_names L') ->
  exists chats,
    calls (trace (select_and_run_model d (line :: rest) s))
    = [ollama_list; ollama_list; ollama_pull q] ++ chats.
Proof.
  intros H q Hq Hin HL Hn Hl. subst q.
  assert (Hne : names <> []) by (intros ->; destruct Hin).
  pose proof (matched_model_exact _ _ Hin) as Hm.
  destruct (list_installed_total d s) as [_ [_ Hc]].
  rewrite (select_matched d line rest s names H Hne Hq); rewrite Hm;
    [|assumption].
  cbv zeta. cbn [trace]. rewrite run_llama_run. cbv zeta.
  cbn [with_model MODEL_NAME].
  assert (Hab : absent (strip line) (model_names L') = true)
    by now apply absent_iff.
  pose proof (ensure_calls d (with_model (strip line) (tick s))
                (strip line) L' HL) as He.
  rewrite Hab in He.
  set (e := ensure_model_exists d (strip line)
              (with_model (strip line) (tick s))) in *.
  destruct (res e) as [[|]|ex]; cbn [trace];
    rewrite !calls_app, Hc, ?calls_app, He; cbn [calls app];
    eexists; reflexivity.
Qed.

Lemma selected_model_missing_from_second_listing_is_pulled_witness :
  res (list_installed_models d_aliased Scenario.fresh) = Ret ["alias"]
  /\ strip "alias" <> ""
  /\ In (strip "alias") ["alias"]
  /\ on_list d_aliased (S (clock Scenario.fresh))
     = Returns {| resp_models := Some [aliased_entry] |}
  /\ ~ In (strip "alias") ["real:7b"]
  /\ ~ In (strip "alias" ++ ":latest")%string ["real:7b"]
  /\ exists chats,
       calls (trace (select_and_run_model d_aliased ["alias"; "q"]
                                          Scenario.fresh))
       = [ollama_list; ollama_list; ollama_pull (strip "alias")] ++ chats.
Proof.
  assert (Hq : strip "alias" <> "") by (vm_compute; discriminate).
  assert (Hi : In (strip "alias") ["alias"]) by (vm_compute; auto).
  assert (Hn : ~ In (strip "alias") ["real:7b"])
    by (vm_compute; intuition discriminate).
  assert (Hl : ~ In (strip "alias" ++ ":latest")%string ["real:7b"])
    by (vm_compute; intuition discriminate).
  split; [reflexivity|]. split; [exact Hq|]. split; [exact Hi|].
  split; [reflexivity|]. split; [exact Hn|]. split; [exact Hl|].
  exact (selected_model_missing_from_second_listing_is_pulled
           d_aliased Scenario.fresh "alias" ["q"] ["alias"]
           {| resp_models := Some [aliased_entry] |}
           eq_refl Hq Hi eq_refl Hn Hl).
Defined.

(** * The other menu actions *)

Lemma lower_char_is_y (c : ascii) :
  lower_char c = "y"%char -> c = "y"%char \/ c = "Y"%char.
Proof.
  destruct c as [b0 b1 b2 b3 b4 b5 b6 b7].
  destruct b0, b1, b2, b3, b4, b5, b6, b7; cbv; intros H;
    try discriminate H; auto.
Qed.

(** Only [y] and [Y] lower-case to [y]. *)
Lemma lower_is_y (line : string) :
  String.eqb (lower line) "y" = true <-> line = "y" \/ line = "Y".
Proof.
  rewrite String.eqb_eq. split.
  - destruct line as [|c [|c' l]]; try discriminate.
    change (lower (String c "")) with (String (lower_char c) "").
    intros H. inversion H as [Hc].
    destruct (lower_char_is_y c Hc); subst; auto.
  - intros [->| ->]; reflexivity.
Qed.

Lemma confirm_action_run (action_name line : string) (rest : list string)
    (s : store) :
  Menu.confirm_action action_name (line :: rest) s
  = {| Menu.xres := Menu.Done (String.eqb (lower line) "y", rest);
       Menu.xfinal := s;
       Menu.xtrace := [Menu.Question (Menu.AskConfirm action_name)] |}.
Proof. reflexivity. Qed.

(** X15. [confirm_action] takes the answer as typed, lower-cased but not
    stripped: it returns [True] exactly for the lines [y] and [Y], and
    [False] for every other line ([yes], the blank line, [y] with a space).
    It shows its question with the action in it and reads one line; at the
    end of standard input it raises [EOFError]. *)
Theorem confirm_action_accepts_only_y
    (action_name line : string) (rest : list string) (s : store) :
  (exists b,
     Menu.xres (Menu.confirm_action action_name (line :: rest) s)
     = Menu.Done (b, rest)
     /\ (b = true <-> line = "y" \/ line = "Y"))
  /\ Menu.xtrace (Menu.confirm_action action_name (line :: rest) s)
     = [Menu.Question (Menu.AskConfirm action_name)]
  /\ Menu.xres (Menu.confirm_action action_name [] s)
     = Menu.Failed (Menu.Base EOFError).
Proof.
  rewrite confirm_action_run. cbn [Menu.xres Menu.xtrace].
  split; [|split; reflexivity].
  exists (String.eqb (lower line) "y"). split; [reflexivity|].
  apply lower_is_y.
Qed.

Lemma menu_for_items_emit {A} (f : A -> Menu.xevent) (xs : list A)
    (s : store) :
  Menu.for_items xs (fun x => Menu.emit (f x)) s
  = {| Menu.xres := Menu.Done tt; Menu.xfinal := s;
       Menu.xtrace := map f xs |}.
Proof.
  induction xs as [|x xs IH]; simpl; [reflexivity|].
  unfold Menu.bind. simpl. now rewrite IH.
Qed.

Lemma menu_for_each_emit {A} (f : A -> Menu.xevent) (st : stream A)
    (s : store) :
  Menu.for_each st (fun x => Menu.emit (f x)) s
  = {| Menu.xres := match failure st with
                    | Some e => Menu.Failed (Menu.Base e)
                    | None => Menu.Done tt
                    end;
       Menu.xfinal := s;
       Menu.xtrace := map f (items st) |}.
Proof.
  unfold Menu.for_each, Menu.bind. rewrite menu_for_items_emit. simpl.
  destruct (failure st); simpl; now rewrite app_nil_r.
Qed.

(** The same with the body written out. *)
Lemma menu_for_each_raw {A} (f : A -> Menu.xevent) (st : stream A)
    (s : store) :
  Menu.for_each st
    (fun x s0 => {| Menu.xres := Menu.Done tt; Menu.xfinal := s0;
                    Menu.xtrace := [f x] |}) s
  = {| Menu.xres := match failure st with
                    | Some e => Menu.Failed (Menu.Base e)
                    | None => Menu.Done tt
                    end;
       Menu.xfinal := s;
       Menu.xtrace := map f (items st) |}.
Proof. apply (menu_for_each_emit f). Qed.

Ltac menu_unfold :=
  cbv beta iota zeta delta
    [Menu.pull_model Menu.remove_model Menu.stop_model Menu.show_ps
     Menu.pre_validation Menu.confirm_action Menu.bind Menu.try_except
     Menu.input Menu.call Menu.report_line Menu.emit Menu.ret Menu.raise
     Menu.xres Menu.xfinal Menu.xtrace];
  cbn [app].

Lemma pull_model_declined (sv : Menu.services) (name answer : string)
    (rest : list string) (s : store) :
  String.eqb (lower answer) "y" = false ->
  Menu.pull_model sv (name :: answer :: rest) s
  = {| Menu.xres := Menu.Done rest; Menu.xfinal := s;
       Menu.xtrace :=
         [Menu.Question Menu.AskPullName;
          Menu.Question (Menu.AskConfirm ("pull '" ++ name ++ "'")%string)] |}.
Proof.
  intros H. menu_unfold. rewrite H. reflexivity.
Qed.

Lemma pull_model_stream (sv : Menu.services) (name answer : string)
    (rest : list string) (s : store) (st : stream progress) :
  String.eqb (lower answer) "y" = true ->
  on_pull (Menu.core sv) (clock s) name = Returns st ->
  Menu.pull_model sv (name :: answer :: rest) s
  = {| Menu.xres := Menu.Done rest; Menu.xfinal := tick s;
       Menu.xtrace :=
         [Menu.Question Menu.AskPullName;
          Menu.Question (Menu.AskConfirm ("pull '" ++ name ++ "'")%string);
          Menu.Report (Menu.Pulling name);
          Menu.Core (Call (ollama_pull name))]
         ++ map (fun p => Menu.Core (Say (PullStatus (get (status p) ""))))
                (items st)
         ++ [Menu.Report (match failure st with
                          | None => Menu.PullReady name
                          | Some e => Menu.PullFailed (Menu.Base e)
                          end)] |}.
Proof.
  intros H HP. menu_unfold. rewrite H, HP. menu_unfold.
  rewrite menu_for_each_raw. menu_unfold.
  destruct (failure st); menu_unfold;
    rewrite <- ?app_assoc, ?app_nil_r; reflexivity.
Qed.

Lemma pull_model_refused (sv : Menu.services) (name answer : string)
    (rest : list string) (s : store) (e : exn) :
  String.eqb (lower answer) "y" = true ->
  on_pull (Menu.core sv) (clock s) name = CallRaises e ->
  Menu.pull_model sv (name :: answer :: rest) s
  = {| Menu.xres := Menu.Done rest; Menu.xfinal := tick s;
       Menu.xtrace :=
         [Menu.Question Menu.AskPullName;
          Menu.Question (Menu.AskConfirm ("pull '" ++ name ++ "'")%string);
          Menu.Report (Menu.Pulling name);
          Menu.Core (Call (ollama_pull name));
          Menu.Report (Menu.PullFailed (Menu.Base e))] |}.
Proof.
  intros H HP. menu_unfold. rewrite H, HP. reflexivity.
Qed.

Lemma remove_model_run (sv : Menu.services) (name answer : string)
    (rest : list string) (s : store) :
  Menu.remove_model sv (name :: answer :: rest) s
  = if String.eqb (lower answer) "y" then
      {| Menu.xres := Menu.Done rest; Menu.xfinal := tick s;
         Menu.xtrace :=
           [Menu.Question Menu.AskDeleteName;
            Menu.Question (Menu.AskConfirm ("DELETE '" ++ name ++ "'")%string);
            Menu.Op (Menu.ollama_delete name);
            Menu.Report (match Menu.on_delete sv (clock s) name with
                         | Returns _ => Menu.Deleted name
                         | CallRaises e => Menu.DeleteError (Menu.Base e)
                         end)] |}
    else
      {| Menu.xres := Menu.Done rest; Menu.xfinal := s;
         Menu.xtrace :=
           [Menu.Question Menu.AskDeleteName;
            Menu.Question
              (Menu.AskConfirm ("DELETE '" ++ name ++ "'")%string)] |}.
Proof.
  menu_unfold. destruct (String.eqb (lower answer) "y"); [|reflexivity].
  destruct (Menu.on_delete sv (clock s) name); reflexivity.
Qed.

Lemma stop_model_run (sv : Menu.services) (name answer : string)
    (rest : list string) (s : store) :
  Menu.stop_model sv (name :: answer :: rest) s
  = if String.eqb (lower answer) "y" then
      {| Menu.xres := Menu.Done rest; Menu.xfinal := tick s;
         Menu.xtrace :=
           [Menu.Question Menu.AskStopName;
            Menu.Question (Menu.AskConfirm ("STOP '" ++ name ++ "'")%string);
            Menu.Op (Menu.ollama_generate name 0);
            Menu.Report (match Menu.on_generate sv (clock s) name 0%Z with
                         | Returns _ => Menu.UnloadSent name
                         | CallRaises e => Menu.StopError (Menu.Base e)
                         end)] |}
    else
      {| Menu.xres := Menu.Done rest; Menu.xfinal := s;
         Menu.xtrace :=
           [Menu.Question Menu.AskStopName;
            Menu.Question
              (Menu.AskConfirm ("STOP '" ++ name ++ "'")%string)] |}.
Proof.
  menu_unfold. destruct (String.eqb (lower answer) "y"); [|reflexivity].
  destruct (Menu.on_generate sv (clock s) name 0%Z); reflexivity.
Qed.

Lemma invocations_app (t u : list Menu.xevent) :
  Menu.invocations (t ++ u) = Menu.invocations t ++ Menu.invocations u.
Proof.
  induction t as [|e t IH]; simpl; [reflexivity|].
  destruct e as [[c|p|n|x]|o|q|r]; simpl; now rewrite IH.
Qed.

Lemma invocations_statuses (ps : list progress) :
  Menu.invocations
    (map (fun p => Menu.Core (Say (PullStatus (get (status p) "")))) ps)
  = [].
Proof. induction ps; simpl; auto. Qed.

Lemma not_y (answer : string) :
  answer <> "y" -> answer <> "Y" -> String.eqb (lower answer) "y" = false.
Proof.
  intros H1 H2. destruct (String.eqb (lower answer) "y") eqn:E;
    [|reflexivity].
  apply lower_is_y in E. tauto.
Qed.

(** X16. [pull_model], [remove_model] and [stop_model] do nothing unless
    the answer to the confirmation is [y] or [Y]: on any other answer each
    of them returns after its two questions, having called nothing, printed
    nothing and left the lines after the answer unread. *)
Theorem unconfirmed_actions_call_nothing
    (sv : Menu.services) (name answer : string) (rest : list string)
    (s : store) :
  answer <> "y" -> answer <> "Y" ->
  Menu.pull_model sv (name :: answer :: rest) s
  = {| Menu.xres := Menu.Done rest; Menu.xfinal := s;
       Menu.xtrace :=
         [Menu.Question Menu.AskPullName;
          Menu.Question (Menu.AskConfirm ("pull '" ++ name ++ "'")%string)] |}
  /\ Menu.remove_model sv (name :: answer :: rest) s
     = {| Menu.xres := Menu.Done rest; Menu.xfinal := s;
          Menu.xtrace :=
            [Menu.Question Menu.AskDeleteName;
             Menu.Question
               (Menu.AskConfirm ("DELETE '" ++ name ++ "'")%string)] |}
  /\ Menu.stop_model sv (name :: answer :: rest) s
     = {| Menu.xres := Menu.Done rest; Menu.xfinal := s;
          Menu.xtrace :=
            [Menu.Question Menu.AskStopName;
             Menu.Question
               (Menu.AskConfirm ("STOP '" ++ name ++ "'")%string)] |}.
Proof.
  intros H1 H2. pose proof (not_y answer H1 H2) as H.
  split; [now apply pull_model_declined|].
  rewrite remove_model_run, stop_model_run, H. split; reflexivity.
Qed.

Lemma unconfirmed_actions_call_nothing_witness :
  "yes" <> "y" /\ "yes" <> "Y"
  /\ Menu.xres (Menu.remove_model MenuScenario.sv_up
                  ["llama3:latest"; "yes"; "next"] Scenario.fresh)
     = Menu.Done ["next"]
  /\ Menu.invocations
       (Menu.xtrace (Menu.remove_model MenuScenario.sv_up
                       ["llama3:latest"; "yes"; "next"] Scenario.fresh))
     = [].
Proof.
  assert (H1 : "yes" <> "y") by discriminate.
  assert (H2 : "yes" <> "Y") by discriminate.
  split; [exact H1|]. split; [exact H2|].
  pose proof (proj1 (proj2 (unconfirmed_actions_call_nothing
                              MenuScenario.sv_up "llama3:latest" "yes"
                              ["next"] Scenario.fresh H1 H2))) as H.
  rewrite H. split; reflexivity.
Defined.

Lemma is_y (answer : string) :
  answer = "y" \/ answer = "Y" -> String.eqb (lower answer) "y" = true.
Proof. apply lower_is_y. Qed.

(** X17. Confirmed with [y] or [Y], [pull_model] pulls the name exactly as
    typed (not stripped, and without looking at what is installed): its
    one daemon call is that pull.  It shows the statuses of the stream in
    order and ends with the ready line when the stream ends cleanly, with
    the failure line when the call or the stream raises; in every case it
    returns, with the lines after the answer unread. *)
Theorem pull_model_pulls_name_as_typed
    (sv : Menu.services) (name answer : string) (rest : list string)
    (s : store) :
  answer = "y" \/ answer = "Y" ->
  let r := Menu.pull_model sv (name :: answer :: rest) s in
  Menu.xres r = Menu.Done rest
  /\ Menu.invocations (Menu.xtrace r) = [Menu.Daemon (ollama_pull name)]
  /\ (forall st, on_pull (Menu.core sv) (clock s) name = Returns st ->
        Menu.xtrace r
        = [Menu.Question Menu.AskPullName;
           Menu.Question (Menu.AskConfirm ("pull '" ++ name ++ "'")%string);
           Menu.Report (Menu.Pulling name);
           Menu.Core (Call (ollama_pull name))]
          ++ map (fun p => Menu.Core (Say (PullStatus (get (status p) ""))))
                 (items st)
          ++ [Menu.Report (match failure st with
                           | None => Menu.PullReady name
                           | Some e => Menu.PullFailed (Menu.Base e)
                           end)])
  /\ (forall e, on_pull (Menu.core sv) (clock s) name = CallRaises e ->
        In (Menu.Report (Menu.PullFailed (Menu.Base e))) (Menu.xtrace r)).
Proof.
  intros Hy r. subst r. apply is_y in Hy.
  destruct (on_pull (Menu.core sv) (clock s) name) as [e|st] eqn:HP.
  - rewrite (pull_model_refused sv name answer rest s e Hy HP).
    cbn [Menu.xres Menu.xtrace]. split; [reflexivity|].
    split; [reflexivity|]. split; [discriminate|].
    intros e' E. inversion E; subst. simpl. auto 10.
  - rewrite (pull_model_stream sv name answer rest s st Hy HP).
    cbn [Menu.xres Menu.xtrace]. split; [reflexivity|]. split.
    + rewrite invocations_app. cbn [Menu.invocations app].
      rewrite invocations_app, invocations_statuses. reflexivity.
    + split; [|discriminate]. intros st' E. inversion E; subst. reflexivity.
Qed.

Lemma pull_model_pulls_name_as_typed_witness :
  ("Y" = "y" \/ "Y" = "Y")
  /\ Menu.invocations
       (Menu.xtrace (Menu.pull_model MenuScenario.sv_up
                       [" llama3 "; "Y"; "next"] Scenario.fresh))
     = [Menu.Daemon (ollama_pull " llama3 ")].
Proof.
  assert (H : "Y" = "y" \/ "Y" = "Y") by (right; reflexivity).
  split; [exact H|].
  exact (proj1 (proj2 (pull_model_pulls_name_as_typed
                         MenuScenario.sv_up " llama3 " "Y" ["next"]
                         Scenario.fresh H))).
Defined.

(** X18. Confirmed with [y] or [Y], [remove_model] asks the daemon once to
    delete the name exactly as typed; it reports the deletion when the
    call returns and the error when it raises, and returns in both cases
    with the lines after the answer unread. *)
Theorem remove_model_deletes_name_as_typed
    (sv : Menu.services) (name answer : string) (rest : list string)
    (s : store) :
  answer = "y" \/ answer = "Y" ->
  let r := Menu.remove_model sv (name :: answer :: rest) s in
  Menu.xres r = Menu.Done rest
  /\ Menu.invocations (Menu.xtrace r) = [Menu.Other (Menu.ollama_delete name)]
  /\ (In (Menu.Report (Menu.Deleted name)) (Menu.xtrace r)
      <-> Menu.on_delete sv (clock s) name = Returns tt)
  /\ (forall e, Menu.on_delete sv (clock s) name = CallRaises e ->
        In (Menu.Report (Menu.DeleteError (Menu.Base e))) (Menu.xtrace r)).
Proof.
  intros Hy r. subst r. apply is_y in Hy.
  rewrite remove_model_run, Hy. cbn [Menu.xres Menu.xtrace].
  split; [reflexivity|]. split; [reflexivity|].
  destruct (Menu.on_delete sv (clock s) name) as [e|[]]; split.
  - split; [|discriminate]. simpl. intuition discriminate.
  - intros e' E. inversion E; subst. simpl. auto 10.
  - split; [reflexivity|]. intros _. simpl. auto 10.
  - discriminate.
Qed.

Lemma remove_model_deletes_name_as_typed_witness :
  ("y" = "y" \/ "y" = "Y")
  /\ Menu.invocations
       (Menu.xtrace (Menu.remove_model MenuScenario.sv_up
                       ["llama3:latest"; "y"] Scenario.fresh))
     = [Menu.Other (Menu.ollama_delete "llama3:latest")].
Proof.
  assert (H : "y" = "y" \/ "y" = "Y") by (left; reflexivity).
  split; [exact H|].
  exact (proj1 (proj2 (remove_model_deletes_name_as_typed
                         MenuScenario.sv_up "llama3:latest" "y" []
                         Scenario.fresh H))).
Defined.

(** X19. Confirmed with [y] or [Y], [stop_model] sends one [generate]
    request for the name as typed with [keep_alive] 0; it reports that the
    unload signal was sent when the call returns and the error when it
    raises, and returns in both cases. *)
Theorem stop_model_sends_zero_keep_alive
    (sv : Menu.services) (name answer : string) (rest : list string)
    (s : store) :
  answer = "y" \/ answer = "Y" ->
  let r := Menu.stop_model sv (name :: answer :: rest) s in
  Menu.xres r = Menu.Done rest
  /\ Menu.invocations (Menu.xtrace r)
     = [Menu.Other (Menu.ollama_generate name 0)]
  /\ (In (Menu.Report (Menu.UnloadSent name)) (Menu.xtrace r)
      <-> Menu.on_generate sv (clock s) name 0%Z = Returns tt)
  /\ (forall e, Menu.on_generate sv (clock s) name 0%Z = CallRaises e ->
        In (Menu.Report (Menu.StopError (Menu.Base e))) (Menu.xtrace r)).
Proof.
  intros Hy r. subst r. apply is_y in Hy.
  rewrite stop_model_run, Hy. cbn [Menu.xres Menu.xtrace].
  split; [reflexivity|]. split; [reflexivity|].
  destruct (Menu.on_generate sv (clock s) name 0%Z) as [e|[]]; split.
  - split; [|discriminate]. simpl. intuition discriminate.
  - intros e' E. inversion E; subst. simpl. auto 10.
  - split; [reflexivity|]. intros _. simpl. auto 10.
  - discriminate.
Qed.

Lemma stop_model_sends_zero_keep_alive_witness :
  ("y" = "y" \/ "y" = "Y")
  /\ Menu.invocations
       (Menu.xtrace (Menu.stop_model MenuScenario.sv_down
                       ["llama3:latest"; "y"] Scenario.fresh))
     = [Menu.Other (Menu.ollama_generate "llama3:latest" 0)].
Proof.
  assert (H : "y" = "y" \/ "y" = "Y") by (left; reflexivity).
  split; [exact H|].
  exact (proj1 (proj2 (stop_model_sends_zero_keep_alive
                         MenuScenario.sv_down "llama3:latest" "y" []
                         Scenario.fresh H))).
Defined.





(** X21. No exception of the daemon leaves [pull_model], [remove_model] or
    [stop_model]: given their two lines they return with the rest of
    standard input, whatever the daemon does; with fewer than two lines
    they raise the [EOFError] of the [input] that found none, before any
    daemon call. *)
Theorem gated_actions_raise_only_eof
    (sv : Menu.services) (stdin : list string) (s : store) :
  forall act,
    act = Menu.pull_model \/ act = Menu.remove_model
    \/ act = Menu.stop_model ->
    match stdin with
    | _ :: _ :: rest => Menu.xres (act sv stdin s) = Menu.Done rest
    | _ => Menu.xres (act sv stdin s) = Menu.Failed (Menu.Base EOFError)
           /\ Menu.invocations (Menu.xtrace (act sv stdin s)) = []
    end.
Proof.
  intros act Hact.
  destruct stdin as [|name [|answer rest]].
  - destruct Hact as [->|[->| ->]]; split; reflexivity.
  - destruct Hact as [->|[->| ->]]; split; reflexivity.
  - destruct Hact as [->|[->| ->]].
    + destruct (String.eqb (lower answer) "y") eqn:Hy.
      * destruct (on_pull (Menu.core sv) (clock s) name) as [e|st] eqn:HP.
        -- now rewrite (pull_model_refused sv name answer rest s e Hy HP).
        -- now rewrite (pull_model_stream sv name answer rest s st Hy HP).
      * now rewrite (pull_model_declined sv name answer rest s Hy).
    + rewrite remove_model_run.
      now destruct (String.eqb (lower answer) "y").
    + rewrite stop_model_run.
      now destruct (String.eqb (lower answer) "y").
Qed.

Lemma gated_actions_raise_only_eof_witness :
  (Menu.remove_model = Menu.pull_model
   \/ Menu.remove_model = Menu.remove_model
   \/ Menu.remove_model = Menu.stop_model)
  /\ Menu.xres (Menu.remove_model MenuScenario.sv_down ["llama3"; "y"; "4"]
                                  Scenario.fresh)
     = Menu.Done ["4"].
Proof.
  assert (H : Menu.remove_model = Menu.pull_model
              \/ Menu.remove_model = Menu.remove_model
              \/ Menu.remove_model = Menu.stop_model)
    by (right; left; reflexivity).
  split; [exact H|].
  exact (gated_actions_raise_only_eof
           MenuScenario.sv_down ["llama3"; "y"; "4"] Scenario.fresh
           Menu.remove_model H).
Defined.

(** * The remote library *)

Lemma collect_matches_spec (q : string) (items : list Menu.item) :
  forall acc,
  Menu.collect_matches q items acc = acc ++ flat_map (Menu.match_of q) items.
Proof.
  induction items as [|i items IH]; intros acc; simpl.
  - now rewrite app_nil_r.
  - unfold Menu.match_of at 1.
    destruct (Menu.name_tag i) as [name|]; [|apply IH].
    destruct (Menu.matches_query q name (get (Menu.desc_tag i) ""));
      rewrite IH; [now rewrite <- app_assoc | reflexivity].
Qed.

Lemma remote_rows_run (items : list Menu.item) :
  forall (found_any : bool) (s : store),
  Menu.remote_rows items found_any s
  = {| Menu.xres := Menu.Done (found_any || Menu.any_named items);
       Menu.xfinal := s;
       Menu.xtrace := flat_map Menu.row_of items |}.
Proof.
  induction items as [|i items IH]; intros found_any s.
  - simpl. unfold Menu.ret. now rewrite orb_false_r.
  - cbn [Menu.remote_rows Menu.any_named existsb flat_map].
    unfold Menu.row_of at 1.
    destruct (Menu.name_tag i) as [name|].
    + unfold Menu.bind, Menu.report_line, Menu.emit.
      cbn [Menu.xres Menu.xfinal Menu.xtrace]. rewrite IH.
      cbn [Menu.xres Menu.xfinal Menu.xtrace orb app].
      now rewrite orb_true_r.
    + rewrite IH. reflexivity.
Qed.

Lemma list_remote_models_run (sv : Menu.services) (s : store) :
  Menu.list_remote_models sv s
  = {| Menu.xres := Menu.Done tt; Menu.xfinal := tick s;
       Menu.xtrace :=
         [Menu.Report (Menu.Querying Menu.LIBRARY_URL);
          Menu.Op (Menu.requests_get Menu.LIBRARY_URL)]
         ++ match Menu.on_get sv (clock s) Menu.LIBRARY_URL with
            | CallRaises e => [Menu.Report (Menu.FetchError (Menu.Base e))]
            | Returns pg =>
                Menu.Report Menu.RemoteHeader
                :: flat_map Menu.row_of (Menu.model_items pg)
                ++ (if Menu.any_named (Menu.model_items pg) then []
                    else [Menu.Report Menu.CouldNotParse])
            end |}.
Proof.
  unfold Menu.list_remote_models. menu_unfold.
  destruct (Menu.on_get sv (clock s) Menu.LIBRARY_URL) as [e|pg];
    [reflexivity|].
  rewrite remote_rows_run. menu_unfold.
  destruct (Menu.any_named (Menu.model_items pg)); menu_unfold;
    rewrite ?app_nil_r; reflexivity.
Qed.

Lemma any_named_false (items : list Menu.item) :
  Menu.any_named items = false
  <-> forall i, In i items -> Menu.name_tag i = None.
Proof.
  unfold Menu.any_named. split.
  - intros H i Hi. destruct (Menu.name_tag i) as [name|] eqn:E;
      [|reflexivity].
    assert (existsb (fun i => match Menu.name_tag i with
                              | Some _ => true | None => false end)
                    items = true) as Ht.
    { apply existsb_exists. exists i. split; [assumption | now rewrite E]. }
    congruence.
  - intros H. destruct (existsb _ items) eqn:E; [|reflexivity].
    apply existsb_exists in E. destruct E as [i [Hi Ht]].
    rewrite (H i Hi) in Ht. discriminate.
Qed.

Lemma in_remote_rows (items : list Menu.item) (e : Menu.xevent) :
  In e (flat_map Menu.row_of items)
  <-> exists i, In i items
                /\ exists name,
                     Menu.name_tag i = Some name
                     /\ e = Menu.Report
                              (Menu.RemoteRow name
                                 (get (Menu.desc_tag i)
                                      "No description provided.")).
Proof.
  rewrite in_flat_map. split.
  - intros [i [Hi He]]. exists i. split; [assumption|].
    unfold Menu.row_of in He. destruct (Menu.name_tag i) as [name|];
      [|destruct He].
    destruct He as [He|[]]. exists name. auto.
  - intros [i [Hi [name [Hn He]]]]. exists i. split; [assumption|].
    unfold Menu.row_of. rewrite Hn. left. now symmetry.
Qed.

(** X22. [list_remote_models] never raises.  When the page is fetched it
    prints, in the order of the page, one row for each item that has a name
    tag (an [h2], else a [span.text-lg]), the description being the text of
    the item's [p], else of its [span.max-w-md], else [No description
    provided.]; the items are those of the first selector, those of the
    second only when the first finds none.  It prints the could-not-parse
    notice exactly when no item has a name tag (in particular when there
    are no items).  When the request fails it prints the error instead. *)
Theorem list_remote_models_rows_or_parse_failure
    (sv : Menu.services) (s : store) :
  Menu.xres (Menu.list_remote_models sv s) = Menu.Done tt
  /\ (forall e,
        Menu.on_get sv (clock s) Menu.LIBRARY_URL = CallRaises e ->
        Menu.xtrace (Menu.list_remote_models sv s)
        = [Menu.Report (Menu.Querying Menu.LIBRARY_URL);
           Menu.Op (Menu.requests_get Menu.LIBRARY_URL);
           Menu.Report (Menu.FetchError (Menu.Base e))])
  /\ (forall pg,
        Menu.on_get sv (clock s) Menu.LIBRARY_URL = Returns pg ->
        let items := match Menu.li_py_6 pg with
                     | [] => Menu.ul_li pg
                     | found => found
                     end in
        Menu.xtrace (Menu.list_remote_models sv s)
        = [Menu.Report (Menu.Querying Menu.LIBRARY_URL);
           Menu.Op (Menu.requests_get Menu.LIBRARY_URL);
           Menu.Report Menu.RemoteHeader]
          ++ flat_map Menu.row_of items
          ++ (if Menu.any_named items then []
              else [Menu.Report Menu.CouldNotParse])
        /\ (In (Menu.Report Menu.CouldNotParse)
               (Menu.xtrace (Menu.list_remote_models sv s))
            <-> forall i, In i items -> Menu.name_tag i = None)).
Proof.
  rewrite list_remote_models_run. cbn [Menu.xres Menu.xtrace].
  split; [reflexivity|]. split.
  - intros e E. now rewrite E.
  - intros pg E. rewrite E. fold (Menu.model_items pg).
    split; [reflexivity|].
    rewrite <- any_named_false. cbn [app]. split.
    + intros [H|[H|[H|H]]]; try discriminate.
      apply in_app_or in H. destruct H as [H|H].
      * apply in_remote_rows in H.
        destruct H as [i [_ [name [_ H]]]]. discriminate.
      * destruct (Menu.any_named (Menu.model_items pg));
          [destruct H | reflexivity].
    + intros H. rewrite H. do 3 right. apply in_or_app. right. now left.
Qed.

Lemma list_remote_models_rows_or_parse_failure_witness :
  Menu.on_get MenuScenario.sv_up (clock Scenario.fresh) Menu.LIBRARY_URL
  = Returns MenuScenario.library
  /\ Menu.xtrace (Menu.list_remote_models MenuScenario.sv_up Scenario.fresh)
     = [Menu.Report (Menu.Querying Menu.LIBRARY_URL);
        Menu.Op (Menu.requests_get Menu.LIBRARY_URL);
        Menu.Report Menu.RemoteHeader;
        Menu.Report (Menu.RemoteRow "Mistral" "A 7B model");
        Menu.Report (Menu.RemoteRow "llava" "No description provided.")].
Proof.
  split; [reflexivity|].
  exact (proj1 (proj2 (proj2 (list_remote_models_rows_or_parse_failure
                                MenuScenario.sv_up Scenario.fresh))
                      MenuScenario.library eq_refl)).
Defined.

Lemma is_blank_lower (line : string) : is_blank (lower line) = is_blank line.
Proof. now destruct line. Qed.

Lemma menu_for_items_raw {A} (f : A -> Menu.xevent) (xs : list A)
    (s : store) :
  Menu.for_items xs
    (fun x s0 => {| Menu.xres := Menu.Done tt; Menu.xfinal := s0;
                    Menu.xtrace := [f x] |}) s
  = {| Menu.xres := Menu.Done tt; Menu.xfinal := s;
       Menu.xtrace := map f xs |}.
Proof. apply (menu_for_items_emit f). Qed.

Ltac remote_unfold :=
  cbv beta iota zeta delta
    [Menu.search_remote_models Menu.fetch_all_remote_data
     Menu.list_remote_models Menu.bind Menu.try_except
     Menu.input Menu.call Menu.report_line Menu.emit Menu.ret Menu.raise
     Menu.xres Menu.xfinal Menu.xtrace];
  cbn [app].

Lemma search_run (sv : Menu.services) (line : string) (rest : list string)
    (s : store) :
  line <> "" ->
  Menu.search_remote_models sv (line :: rest) s
  = {| Menu.xres := Menu.Done rest; Menu.xfinal := tick s;
       Menu.xtrace :=
         [Menu.Question Menu.AskSearch;
          Menu.Report (Menu.Searching (lower line));
          Menu.Op (Menu.requests_get Menu.LIBRARY_URL)]
         ++ match Menu.on_get sv (clock s) Menu.LIBRARY_URL with
            | CallRaises e =>
                [Menu.Report (Menu.ReachError (Menu.Base e));
                 Menu.Report (Menu.NoneFound (lower line))]
            | Returns pg =>
                search_report (lower line)
                  (flat_map (Menu.match_of (lower line))
                            (Menu.model_items pg))
            end |}.
Proof.
  intros Hne.
  assert (Hb : is_blank (lower line) = false).
  { rewrite is_blank_lower. now apply is_blank_false. }
  remote_unfold. rewrite Hb. remote_unfold.
  destruct (Menu.on_get sv (clock s) Menu.LIBRARY_URL) as [e|pg].
  - reflexivity.
  - rewrite collect_matches_spec. cbn [app]. unfold search_report.
    destruct (flat_map (Menu.match_of (lower line)) (Menu.model_items pg))
      as [|m ms]; [reflexivity|].
    rewrite (menu_for_items_raw
               (fun m => Menu.Report (Menu.FoundRow (fst m) (snd m)))).
    remote_unfold. rewrite app_nil_r. reflexivity.
Qed.

(** X23. [search_remote_models] lower-cases the query and does not strip
    it.  On the empty line it prints that the search is cancelled and
    returns without any request; on every other line, one of spaces
    included, it makes exactly one request, to the library page.  It
    returns in both cases, also when the request fails; with standard input
    at its end it raises [EOFError]. *)
Theorem search_requests_iff_query_not_empty
    (sv : Menu.services) (line : string) (rest : list string) (s : store) :
  let r := Menu.search_remote_models sv (line :: rest) s in
  Menu.xres r = Menu.Done rest
  /\ (line = "" ->
      Menu.xtrace r
      = [Menu.Question Menu.AskSearch; Menu.Report Menu.SearchCancelled])
  /\ (Menu.invocations (Menu.xtrace r) = [] <-> line = "")
  /\ (line <> "" ->
      Menu.invocations (Menu.xtrace r)
      = [Menu.Other (Menu.requests_get Menu.LIBRARY_URL)])
  /\ Menu.xres (Menu.search_remote_models sv [] s)
     = Menu.Failed (Menu.Base EOFError).
Proof.
  intros r. subst r.
  assert (Hinv : forall q ms, Menu.invocations (search_report q ms) = []).
  { intros q ms. unfold search_report. destruct ms as [|m ms];
      [reflexivity|]. cbn [Menu.invocations].
    induction (m :: ms) as [|x xs IH]; [reflexivity | exact IH]. }
  destruct (string_dec line "") as [->|Hne].
  - repeat split; try reflexivity; intros; congruence.
  - rewrite (search_run sv line rest s Hne). cbn [Menu.xres Menu.xtrace].
    assert (Hc : Menu.invocations
                   ([Menu.Question Menu.AskSearch;
                     Menu.Report (Menu.Searching (lower line));
                     Menu.Op (Menu.requests_get Menu.LIBRARY_URL)]
                    ++ match Menu.on_get sv (clock s) Menu.LIBRARY_URL with
                       | CallRaises e =>
                           [Menu.Report (Menu.ReachError (Menu.Base e));
                            Menu.Report (Menu.NoneFound (lower line))]
                       | Returns pg =>
                           search_report (lower line)
                             (flat_map (Menu.match_of (lower line))
                                       (Menu.model_items pg))
                       end)
                 = [Menu.Other (Menu.requests_get Menu.LIBRARY_URL)]).
    { rewrite invocations_app. cbn [Menu.invocations app].
      destruct (Menu.on_get sv (clock s) Menu.LIBRARY_URL);
        [reflexivity | now rewrite Hinv]. }
    rewrite Hc.
    split; [reflexivity|]. split; [congruence|].
    split; [split; [discriminate | congruence]|].
    split; reflexivity.
Qed.

Lemma search_requests_iff_query_not_empty_witness :
  " " <> ""
  /\ Menu.invocations
       (Menu.xtrace (Menu.search_remote_models MenuScenario.sv_up
                       [" "; "next"] Scenario.fresh))
     = [Menu.Other (Menu.requests_get Menu.LIBRARY_URL)].
Proof.
  assert (H : " " <> "") by discriminate.
  split; [exact H|].
  exact (proj1 (proj2 (proj2 (proj2 (search_requests_iff_query_not_empty
                                       MenuScenario.sv_up " " ["next"]
                                       Scenario.fresh)))) H).
Defined.

Lemma in_match_of (q : string) (items : list Menu.item) (name desc : string) :
  In (name, desc) (flat_map (Menu.match_of q) items)
  <-> exists i, In i items
                /\ Menu.name_tag i = Some name
                /\ get (Menu.desc_tag i) "" = desc
                /\ Menu.matches_query q name desc = true.
Proof.
  rewrite in_flat_map. split.
  - intros [i [Hi Hm]]. exists i. split; [assumption|].
    unfold Menu.match_of in Hm.
    destruct (Menu.name_tag i) as [n|]; [|destruct Hm].
    destruct (Menu.matches_query q n (get (Menu.desc_tag i) "")) eqn:E;
      [|destruct Hm].
    destruct Hm as [Hm|[]]. inversion Hm; subst. auto.
  - intros [i [Hi [Hn [Hd Hq]]]]. exists i. split; [assumption|].
    unfold Menu.match_of. rewrite Hn, Hd, Hq. now left.
Qed.

(** X24. When the page is fetched, [search_remote_models] shows a row for a
    name and a description exactly when some item of the page has that
    name tag and that description (the empty string when it has none) and
    the lower-cased query occurs in the lower-cased name or in the
    lower-cased description; items without a name tag are never shown.
    The count it announces is the number of rows, and it prints the
    nothing-found line exactly when there is no such item. *)
Theorem search_shows_exactly_the_matching_items
    (sv : Menu.services) (line : string) (rest : list string) (s : store)
    (pg : Menu.page) :
  line <> "" ->
  Menu.on_get sv (clock s) Menu.LIBRARY_URL = Returns pg ->
  let q := lower line in
  let t := Menu.xtrace (Menu.search_remote_models sv (line :: rest) s) in
  let found := flat_map (Menu.match_of q) (Menu.model_items pg) in
  (forall name desc,
     In (Menu.Report (Menu.FoundRow name desc)) t
     <-> exists i, In i (Menu.model_items pg)
                   /\ Menu.name_tag i = Some name
                   /\ get (Menu.desc_tag i) "" = desc
                   /\ (Menu.contains q (lower name)
                       || Menu.contains q (lower desc)) = true)
  /\ (found <> [] -> In (Menu.Report (Menu.Found (length found))) t)
  /\ (In (Menu.Report (Menu.NoneFound q)) t <-> found = []).
Proof.
  intros Hne HG q t found. subst q t found.
  rewrite (search_run sv line rest s Hne), HG. cbn [Menu.xtrace app].
  set (found := flat_map (Menu.match_of (lower line)) (Menu.model_items pg)).
  assert (Hrow : forall name desc,
             In (Menu.Report (Menu.FoundRow name desc))
                (search_report (lower line) found)
             <-> In (name, desc) found).
  { intros name desc. unfold search_report.
    destruct found as [|m ms] eqn:E.
    - simpl. split; [intros [H|[]]; discriminate | tauto].
    - rewrite <- E. split.
      + intros [H|H]; [discriminate|].
        apply in_map_iff in H. destruct H as [[n d] [H Hin]].
        inversion H; subst. exact Hin.
      + intros H. right. apply in_map_iff. exists (name, desc). auto. }
  split; [|split].
  - intros name desc. rewrite <- (in_match_of (lower line)).
    fold found. rewrite <- Hrow. split.
    + intros [H|[H|[H|H]]]; try discriminate. exact H.
    + intros H. do 3 right. exact H.
  - intros Hf. do 3 right. unfold search_report.
    destruct found as [|m ms]; [congruence|]. now left.
  - unfold search_report. destruct found as [|m ms].
    + split; [reflexivity|]. intros _. do 3 right. now left.
    + split; [|discriminate].
      intros [H|[H|[H|[H|H]]]]; try discriminate.
      apply in_map_iff in H. destruct H as [x [H _]]. discriminate.
Qed.

Lemma search_shows_exactly_the_matching_items_witness :
  "MIS" <> ""
  /\ Menu.on_get MenuScenario.sv_up (clock Scenario.fresh) Menu.LIBRARY_URL
     = Returns MenuScenario.library
  /\ In (Menu.Report (Menu.Found 1))
        (Menu.xtrace (Menu.search_remote_models MenuScenario.sv_up
                        ["MIS"; "next"] Scenario.fresh)).
Proof.
  assert (H : "MIS" <> "") by discriminate.
  split; [exact H|]. split; [reflexivity|].
  apply (proj1 (proj2 (search_shows_exactly_the_matching_items
                         MenuScenario.sv_up "MIS" ["next"] Scenario.fresh
                         MenuScenario.library H eq_refl))).
  vm_compute. discriminate.
Defined.
